(** * Sage: ledger synchronisation server

    A shallow embedding of the Go sources of the sage server (packages
    [direct], [directconnect] and [server]) together with models of the
    ledger, rules and reconciliation packages, and the properties
    established about them. *)

From Stdlib Require Import ZArith NArith List String Ascii Bool Lia.
Import ListNotations.

#[local] Set Warnings "-register-all".
Local Open Scope string_scope.
Local Open Scope list_scope.

(** ** Go values shared by the packages *)

(** A [fmt] argument of [errors.Errorf]. *)
Inductive fmtArg : Type :=
| FInt (z : Z)
| FStr (s : string).

(** Go [error] values.  [ErrAuthFailed] is the package-level sentinel of
    package [direct]; it is compared by identity in the source, so it is a
    constructor of its own.  [Errorf] stands for a value freshly made by
    [errors.New] or [errors.Errorf], [Wrap] for [errors.Wrap], and
    [ErrList] for a non-empty [sErrors.Errors] returned as an [error];
    [LedgerError] is a value whose dynamic type is [ledger.Error]. *)
Inductive error : Type :=
| ErrAuthFailed
| Errorf (format : string) (args : list fmtArg)
| Wrap (cause : error) (msg : string)
| ErrList (errs : list error)
| LedgerError (msg : string).

(** The type assertion [err.(ledger.Error)]. *)
Definition isLedgerError (e : error) : bool :=
  match e with LedgerError _ => true | _ => false end.

Definition isAuthFailed (e : error) : bool :=
  match e with ErrAuthFailed => true | _ => false end.

Lemma isAuthFailed_iff (e : error) : isAuthFailed e = true <-> e = ErrAuthFailed.
Proof. destruct e; simpl; split; intros H; congruence. Qed.

(** ** sErrors.Errors, the error accumulator

    The accumulator is used by [ValidateConnector] through [ErrIf],
    [AddErr] and [ErrOrNil]; its declaration is in package [errors].
    [ErrIf] reports whether it recorded an error. *)
Module sErrors.

Definition Errors := list error.

Definition ErrIf (errs : Errors) (cond : bool) (format : string) : Errors * bool :=
    if cond then (errs ++ [Errorf format []], true) else (errs, false).

Definition AddErr (errs : Errors) (err : option error) : Errors :=
    match err with
    | Some e => errs ++ [e]
    | None => errs
    end.

Definition ErrOrNil (errs : Errors) : option error :=
    match errs with
    | [] => None
    | _ :: _ => Some (ErrList errs)
    end.

Lemma ErrIf_fst errs cond format :
    fst (ErrIf errs cond format) =
    if cond then errs ++ [Errorf format []] else errs.
  Proof. unfold ErrIf. now destruct cond. Qed.

Lemma ErrIf_snd errs cond format : snd (ErrIf errs cond format) = cond.
  Proof. unfold ErrIf. now destruct cond. Qed.

Lemma ErrOrNil_None errs : ErrOrNil errs = None <-> errs = [].
  Proof. destruct errs; simpl; split; congruence. Qed.

End sErrors.

(** ** Package directconnect: account types (bank.go) *)
Module DirectConnect.

(** Go strings are read as sequences of runes; [strings.ToUpper] maps
    [unicode.ToUpper] over them. *)
Definition rune := N.
Definition gostring := list rune.

Definition runes (s : string) : gostring :=
  map N_of_ascii (list_ascii_of_string s).

Fixpoint gostring_eqb (a b : gostring) : bool :=
  match a, b with
  | [], [] => true
  | x :: a', y :: b' => N.eqb x y && gostring_eqb a' b'
  | _, _ => false
  end.

Lemma gostring_eqb_eq a b : gostring_eqb a b = true <-> a = b.
Proof.
  revert b; induction a as [|x a IH]; intros [|y b]; simpl;
    try (split; congruence).
  rewrite andb_true_iff, N.eqb_eq, IH. split.
  - intros [-> ->]. reflexivity.
  - intros H. inversion H. auto.
Qed.

Lemma gostring_eqb_refl a : gostring_eqb a a = true.
Proof. now apply gostring_eqb_eq. Qed.

(** [type accountType int] with [CheckingType = iota + 1]. *)
Definition accountType := Z.
Definition CheckingType : accountType := 1%Z.
Definition SavingsType : accountType := 2%Z.

(** [func (a accountType) String() string] *)
Definition String_ (a : accountType) : gostring :=
  if Z.eqb a CheckingType then runes "CHECKING"
  else if Z.eqb a SavingsType then runes "SAVINGS"
  else runes "".

Section ToUpper.

(** [unicode.ToUpper] above [unicode.MaxASCII] is a table lookup of the
    Go runtime. *)
Variable unicodeUpper : rune -> rune.

Definition toUpperRune (r : rune) : rune :=
  if N.leb r 127 then
    if N.leb 97 r && N.leb r 122 then (r - 32)%N else r
  else unicodeUpper r.

Definition ToUpper (s : gostring) : gostring := map toUpperRune s.

(** [func ParseAccountType(s string) accountType] *)
Definition ParseAccountType (s : gostring) : accountType :=
  let u := ToUpper s in
  if gostring_eqb u (String_ CheckingType) then CheckingType
  else if gostring_eqb u (String_ SavingsType) then SavingsType
  else 0%Z.

(** Upper-casing a rune twice is the same as upper-casing it once. *)
Hypothesis unicodeUpper_stable :
  forall r, (127 < r)%N -> toUpperRune (unicodeUpper r) = unicodeUpper r.

Lemma toUpperRune_idem r : toUpperRune (toUpperRune r) = toUpperRune r.
Proof.
  destruct (N.leb_spec r 127) as [Hascii | Hwide].
  - unfold toUpperRune at 2.
    destruct (N.leb_spec r 127); [|lia].
    destruct (N.leb_spec 97 r); destruct (N.leb_spec r 122); simpl;
      unfold toUpperRune;
      repeat match goal with
             | |- context [N.leb ?a ?b] =>
                 destruct (N.leb_spec a b); simpl; try lia
             end; reflexivity.
  - assert (E : toUpperRune r = unicodeUpper r).
    { unfold toUpperRune.
      destruct (N.leb_spec r 127); [lia | reflexivity]. }
    rewrite E. now apply unicodeUpper_stable.
Qed.

Lemma ToUpper_idem s : ToUpper (ToUpper s) = ToUpper s.
Proof.
  unfold ToUpper. rewrite map_map. apply map_ext. intros r.
  apply toUpperRune_idem.
Qed.

Lemma ToUpper_ascii_upper (s : string) :
  forallb (fun r => N.leb r 96) (runes s) = true ->
  ToUpper (runes s) = runes s.
Proof.
  unfold ToUpper. generalize (runes s) as l.
  induction l as [|r l IH]; simpl; [reflexivity|].
  intros H. apply andb_true_iff in H. destruct H as [Hr Hl].
  apply N.leb_le in Hr. rewrite (IH Hl). f_equal.
  unfold toUpperRune.
  destruct (N.leb_spec r 127); [|lia].
  destruct (N.leb_spec 97 r); [lia | reflexivity].
Qed.

(** Two runes that are the same letter: equal, or an ASCII lower-case
    letter and its upper-case form. *)
Definition sameLetter (a b : rune) : Prop :=
  a = b \/
  ((97 <= a)%N /\ (a <= 122)%N /\ b = (a - 32)%N) \/
  ((97 <= b)%N /\ (b <= 122)%N /\ a = (b - 32)%N).

(** Two strings that differ at most in the case of their ASCII letters. *)
Definition caseVariant (s t : gostring) : Prop := Forall2 sameLetter s t.

Lemma sameLetter_toUpperRune a b :
  sameLetter a b -> toUpperRune a = toUpperRune b.
Proof.
  intros [-> | [(H1 & H2 & ->) | (H1 & H2 & ->)]]; [reflexivity | |];
    unfold toUpperRune;
    repeat match goal with
           | |- context [N.leb ?x ?y] => destruct (N.leb_spec x y); simpl; try lia
           end; reflexivity.
Qed.

Lemma caseVariant_ToUpper s t : caseVariant s t -> ToUpper s = ToUpper t.
Proof.
  induction 1 as [|a b s t Hab Hst IH]; simpl; [reflexivity|].
  now rewrite (sameLetter_toUpperRune a b Hab), IH.
Qed.

Lemma toUpperRune_ascii_sameLetter a :
  (a <= 127)%N -> sameLetter a (toUpperRune a).
Proof.
  intros Ha. unfold sameLetter, toUpperRune.
  destruct (N.leb_spec a 127); [|lia].
  destruct (N.leb_spec 97 a); destruct (N.leb_spec a 122); simpl; auto.
Qed.

Lemma ToUpper_ascii_caseVariant s :
  Forall (fun r => (r <= 127)%N) s -> caseVariant s (ToUpper s).
Proof.
  induction 1 as [|a s Ha Hs IH]; simpl; constructor;
    [now apply toUpperRune_ascii_sameLetter | exact IH].
Qed.

Lemma ParseAccountType_Checking_iff s :
  ParseAccountType s = CheckingType <-> ToUpper s = String_ CheckingType.
Proof.
  unfold ParseAccountType. cbv zeta.
  destruct (gostring_eqb (ToUpper s) (String_ CheckingType)) eqn:E1.
  - apply gostring_eqb_eq in E1. tauto.
  - assert (ToUpper s <> String_ CheckingType).
    { intros H. apply gostring_eqb_eq in H. congruence. }
    destruct (gostring_eqb (ToUpper s) (String_ SavingsType));
      split; intros; try discriminate; contradiction.
Qed.

Lemma ParseAccountType_Savings_iff s :
  ParseAccountType s = SavingsType <-> ToUpper s = String_ SavingsType.
Proof.
  unfold ParseAccountType. cbv zeta.
  destruct (gostring_eqb (ToUpper s) (String_ CheckingType)) eqn:E1.
  - apply gostring_eqb_eq in E1. split; [discriminate|].
    intros H. rewrite H in E1. discriminate.
  - destruct (gostring_eqb (ToUpper s) (String_ SavingsType)) eqn:E2.
    + apply gostring_eqb_eq in E2. tauto.
    + split; [discriminate|]. intros H. apply gostring_eqb_eq in H. congruence.
Qed.

Lemma ToUpper_String_ a : ToUpper (String_ a) = String_ a.
Proof.
  unfold String_.
  destruct (Z.eqb a CheckingType); [now apply ToUpper_ascii_upper|].
  destruct (Z.eqb a SavingsType); now apply ToUpper_ascii_upper.
Qed.

(** C10: [ParseAccountType] undoes [String] on [CheckingType] and
    [SavingsType]; it gives the same answer on a string and on its
    upper-cased form; on every input whose upper-cased form is neither
    name it returns the zero [accountType], whose [String] is the empty
    string; it does not tell apart two strings that differ only in the
    case of their ASCII letters, so that an ASCII string is read as
    [CheckingType] (as [SavingsType]) exactly when it spells CHECKING
    (SAVINGS) in some mix of upper and lower case, as "checking" and
    "Savings" do. *)
Theorem ParseAccountType_String_round_trip :
  (forall a, a = CheckingType \/ a = SavingsType ->
             ParseAccountType (String_ a) = a) /\
  (forall s, ParseAccountType s = ParseAccountType (ToUpper s)) /\
  (forall s, ToUpper s <> String_ CheckingType ->
             ToUpper s <> String_ SavingsType ->
             ParseAccountType s = 0%Z /\
             String_ (ParseAccountType s) = runes "") /\
  (forall s t, caseVariant s t -> ParseAccountType s = ParseAccountType t) /\
  (forall s, Forall (fun r => (r <= 127)%N) s ->
             (ParseAccountType s = CheckingType <->
              caseVariant s (runes "CHECKING")) /\
             (ParseAccountType s = SavingsType <->
              caseVariant s (runes "SAVINGS"))) /\
  ParseAccountType (runes "checking") = CheckingType /\
  ParseAccountType (runes "Savings") = SavingsType /\
  ParseAccountType (runes "sAvInGs") = SavingsType.
Proof.
  split; [|split; [|split; [|split; [|split]]]].
  - intros a [-> | ->]; unfold ParseAccountType.
    + change (String_ CheckingType) with (runes "CHECKING").
      rewrite ToUpper_ascii_upper by reflexivity. reflexivity.
    + change (String_ SavingsType) with (runes "SAVINGS").
      rewrite ToUpper_ascii_upper by reflexivity. reflexivity.
  - intros s. unfold ParseAccountType. now rewrite ToUpper_idem.
  - intros s Hc Hs. unfold ParseAccountType.
    destruct (gostring_eqb (ToUpper s) (String_ CheckingType)) eqn:E1.
    { apply gostring_eqb_eq in E1. contradiction. }
    destruct (gostring_eqb (ToUpper s) (String_ SavingsType)) eqn:E2.
    { apply gostring_eqb_eq in E2. contradiction. }
    split; reflexivity.
  - intros s t Hst. unfold ParseAccountType.
    now rewrite (caseVariant_ToUpper s t Hst).
  - intros s Hascii. split.
    + rewrite ParseAccountType_Checking_iff.
      change (runes "CHECKING") with (String_ CheckingType). split.
      * intros H. rewrite <- H. now apply ToUpper_ascii_caseVariant.
      * intros H. rewrite (caseVariant_ToUpper _ _ H). apply ToUpper_String_.
    + rewrite ParseAccountType_Savings_iff.
      change (runes "SAVINGS") with (String_ SavingsType). split.
      * intros H. rewrite <- H. now apply ToUpper_ascii_caseVariant.
      * intros H. rewrite (caseVariant_ToUpper _ _ H). apply ToUpper_String_.
  - repeat split.
Qed.

End ToUpper.

End DirectConnect.

(** The Latin fragment of the rune table used to run the account type
    parser on inputs outside ASCII: long s and dotless i upper-case into
    ASCII letters, the Latin-1 lower-case letters move down by 32. *)
Definition latinUpper (r : DirectConnect.rune) : DirectConnect.rune :=
  if N.eqb r 383 then 83%N
  else if N.eqb r 305 then 73%N
  else if N.leb 224 r && N.leb r 254 && negb (N.eqb r 247) then (r - 32)%N
  else r.

Lemma latinUpper_stable :
  forall r, (127 < r)%N ->
            DirectConnect.toUpperRune latinUpper (latinUpper r) = latinUpper r.
Proof.
  intros r Hr. unfold latinUpper at 2 3.
  destruct (N.eqb_spec r 383); [reflexivity|].
  destruct (N.eqb_spec r 305); [reflexivity|].
  destruct (N.leb_spec 224 r); destruct (N.leb_spec r 254);
    destruct (N.eqb_spec r 247); simpl;
    unfold DirectConnect.toUpperRune, latinUpper;
    repeat match goal with
           | |- context [N.leb ?a ?b] => destruct (N.leb_spec a b); simpl; try lia
           | |- context [N.eqb ?a ?b] => destruct (N.eqb_spec a b); simpl; try lia
           end; reflexivity.
Qed.

Example ParseAccountType_long_s :
  DirectConnect.ParseAccountType latinUpper (383%N :: DirectConnect.runes "avings")
  = DirectConnect.SavingsType.
Proof. reflexivity. Qed.

Lemma ParseAccountType_String_round_trip_witness :
  DirectConnect.ParseAccountType latinUpper
    (DirectConnect.String_ DirectConnect.SavingsType) = DirectConnect.SavingsType /\
  DirectConnect.ParseAccountType latinUpper (DirectConnect.runes "Checking")
  = DirectConnect.ParseAccountType latinUpper
      (DirectConnect.ToUpper latinUpper (DirectConnect.runes "Checking")) /\
  DirectConnect.ParseAccountType latinUpper (DirectConnect.runes "MONEYMRKT") = 0%Z /\
  DirectConnect.ParseAccountType latinUpper (DirectConnect.runes "cd")
  = DirectConnect.ParseAccountType latinUpper (DirectConnect.runes "CD") /\
  (DirectConnect.ParseAccountType latinUpper (DirectConnect.runes "SaViNgS")
   = DirectConnect.SavingsType <->
   DirectConnect.caseVariant (DirectConnect.runes "SaViNgS")
     (DirectConnect.runes "SAVINGS")).
Proof.
  destruct (DirectConnect.ParseAccountType_String_round_trip
              latinUpper latinUpper_stable)
    as [Hrt [Hci [Hzero [Hcase [Hascii _]]]]].
  split; [|split; [|split; [|split]]].
  - apply Hrt. right. reflexivity.
  - apply Hci.
  - apply Hzero; vm_compute; discriminate.
  - apply Hcase. cbv.
    repeat (apply Forall2_cons;
            [right; left; repeat split; try (intro; discriminate) |]).
    apply Forall2_nil.
  - apply Hascii. cbv.
    repeat (apply Forall_cons; [intro; discriminate |]).
    apply Forall_nil.
Defined.

(** ** Package direct: the direct connector (connector.go) *)
Module Direct.

Definition ofxAuthFailed : Z := 15500.

(** [direct.Config]; the source reads these four fields. *)
Record Config : Type := {
  AppID : string;
  AppVersion : string;
  OFXVersion : string;
  ClientID : string
}.

(** [model.BasicInstitution] *)
Record BasicInstitution : Type := {
  InstDescription : string;
  InstFID : string;
  InstOrg : string
}.

Record directConnect : Type := {
  Institution : BasicInstitution;
  ConnectorURL : string;
  ConnectorUsername : string;
  ConnectorPassword : string;
  ConnectorConfig : Config
}.

(** A [Connector] interface value is nil or points to a [directConnect]. *)
Definition Connector := option directConnect.

Definition New (description fid org url username password : string)
  (config : Config) : Connector :=
  Some {| Institution := {| InstDescription := description;
                            InstFID := fid;
                            InstOrg := org |};
          ConnectorURL := url;
          ConnectorUsername := username;
          ConnectorPassword := password;
          ConnectorConfig := config |}.

Definition URL (d : directConnect) : string := ConnectorURL d.
Definition Username (d : directConnect) : string := ConnectorUsername d.
Definition Password (d : directConnect) : string := ConnectorPassword d.
Definition Config_ (d : directConnect) : Config := ConnectorConfig d.
Definition Org (d : directConnect) : string := InstOrg (Institution d).
Definition FID (d : directConnect) : string := InstFID (Institution d).

Definition SetPassword (d : directConnect) (password : string) : directConnect :=
  {| Institution := Institution d;
     ConnectorURL := ConnectorURL d;
     ConnectorUsername := ConnectorUsername d;
     ConnectorPassword := password;
     ConnectorConfig := ConnectorConfig d |}.

(** *** ValidateConnector *)
Section Validate.

(** [model.ValidateInstitution], [net/url], [direct.IsLocalhostTestURL] and
    [ofxgo.NewOfxVersion] are collaborators of the validation. *)
Variable ValidateInstitution : directConnect -> option error.
Variable ParsedURL : Type.
Variable url_Parse : string -> ParsedURL + error.
Variable Scheme : ParsedURL -> string.
Variable Hostname : ParsedURL -> string.
Variable IsLocalhostTestURL : string -> bool.
Variable NewOfxVersion : string -> option error.

Definition msgNil := "Direct connect must not be empty".
Definition msgURLEmpty := "Institution URL must not be empty".
Definition msgURLMalformed := "Institution URL is malformed".
Definition msgHTTPS := "Institution URL is required to use HTTPS".
Definition msgUsername := "Institution username must not be empty".
Definition msgPassword := "Institution password must not be empty".
Definition msgAppID := "Institution app ID must not be empty".
Definition msgAppVersion := "Institution app version must not be empty".
Definition msgOFXVersion := "Institution OFX version must not be empty".

(** [func ValidateConnector(connector Connector) error] *)
Definition ValidateConnector (connector : Connector) : option error :=
  let errs : sErrors.Errors := [] in
  match connector with
  | None =>
      let '(errs, _) := sErrors.ErrIf errs true msgNil in
      sErrors.ErrOrNil errs
  | Some c =>
      let '(errs, _) := sErrors.ErrIf errs false msgNil in
      let errs := sErrors.AddErr errs (ValidateInstitution c) in
      let '(errs, _) := sErrors.ErrIf errs (String.eqb (URL c) "") msgURLEmpty in
      let errs :=
        match url_Parse (URL c) with
        | inr err => sErrors.AddErr errs (Some (Wrap err msgURLMalformed))
        | inl u =>
            fst (sErrors.ErrIf errs
                   (negb (String.eqb (Scheme u) "https")
                    && negb (String.eqb (Hostname u) "localhost"))
                   msgHTTPS)
        end in
      let '(errs, _) := sErrors.ErrIf errs (String.eqb (Username c) "") msgUsername in
      let '(errs, _) :=
        sErrors.ErrIf errs
          (String.eqb (Password c) "" && negb (IsLocalhostTestURL (URL c)))
          msgPassword in
      let config := Config_ c in
      let '(errs, _) := sErrors.ErrIf errs (String.eqb (AppID config) "") msgAppID in
      let '(errs, _) :=
        sErrors.ErrIf errs (String.eqb (AppVersion config) "") msgAppVersion in
      let '(errs, emptyVersion) :=
        sErrors.ErrIf errs (String.eqb (OFXVersion config) "") msgOFXVersion in
      let errs :=
        if negb emptyVersion
        then sErrors.AddErr errs (NewOfxVersion (OFXVersion config))
        else errs in
      sErrors.ErrOrNil errs
  end.

(** The conditions under which a connector passes. *)
Definition accepted (c : directConnect) : Prop :=
  ValidateInstitution c = None /\
  URL c <> "" /\
  (exists u, url_Parse (URL c) = inl u /\
             (Scheme u = "https" \/ Hostname u = "localhost")) /\
  Username c <> "" /\
  (Password c <> "" \/ IsLocalhostTestURL (URL c) = true) /\
  AppID (Config_ c) <> "" /\
  AppVersion (Config_ c) <> "" /\
  OFXVersion (Config_ c) <> "" /\
  NewOfxVersion (OFXVersion (Config_ c)) = None.

(** Every violated condition of [c] has its error in [es]. *)
Definition lists_violations (c : directConnect) (es : list error) : Prop :=
  (forall e, ValidateInstitution c = Some e -> In e es) /\
  (URL c = "" -> In (Errorf msgURLEmpty []) es) /\
  (forall e, url_Parse (URL c) = inr e -> In (Wrap e msgURLMalformed) es) /\
  (forall u, url_Parse (URL c) = inl u ->
             Scheme u <> "https" -> Hostname u <> "localhost" ->
             In (Errorf msgHTTPS []) es) /\
  (Username c = "" -> In (Errorf msgUsername []) es) /\
  (Password c = "" -> IsLocalhostTestURL (URL c) = false ->
   In (Errorf msgPassword []) es) /\
  (AppID (Config_ c) = "" -> In (Errorf msgAppID []) es) /\
  (AppVersion (Config_ c) = "" -> In (Errorf msgAppVersion []) es) /\
  (OFXVersion (Config_ c) = "" -> In (Errorf msgOFXVersion []) es) /\
  (forall e, OFXVersion (Config_ c) <> "" ->
             NewOfxVersion (OFXVersion (Config_ c)) = Some e -> In e es).

(** The errors [ValidateConnector] accumulates for a non-nil connector, one
    segment per check. *)
Definition optErr (o : option error) : list error :=
  match o with Some e => [e] | None => [] end.

Definition errIf (cond : bool) (format : string) : list error :=
  if cond then [Errorf format []] else [].

Definition connectorErrors (c : directConnect) : list error :=
  optErr (ValidateInstitution c)
  ++ errIf (String.eqb (URL c) "") msgURLEmpty
  ++ match url_Parse (URL c) with
     | inr err => [Wrap err msgURLMalformed]
     | inl u => errIf (negb (String.eqb (Scheme u) "https")
                       && negb (String.eqb (Hostname u) "localhost")) msgHTTPS
     end
  ++ errIf (String.eqb (Username c) "") msgUsername
  ++ errIf (String.eqb (Password c) "" && negb (IsLocalhostTestURL (URL c)))
       msgPassword
  ++ errIf (String.eqb (AppID (Config_ c)) "") msgAppID
  ++ errIf (String.eqb (AppVersion (Config_ c)) "") msgAppVersion
  ++ errIf (String.eqb (OFXVersion (Config_ c)) "") msgOFXVersion
  ++ (if String.eqb (OFXVersion (Config_ c)) "" then []
      else optErr (NewOfxVersion (OFXVersion (Config_ c)))).

Lemma ErrIf_errIf errs cond format :
  sErrors.ErrIf errs cond format = (errs ++ errIf cond format, cond).
Proof. unfold sErrors.ErrIf, errIf. destruct cond; [|rewrite app_nil_r]; reflexivity. Qed.

Lemma AddErr_optErr errs o : sErrors.AddErr errs o = errs ++ optErr o.
Proof. destruct o; simpl; [|rewrite app_nil_r]; reflexivity. Qed.

Lemma ValidateConnector_Some c :
  ValidateConnector (Some c) = sErrors.ErrOrNil (connectorErrors c).
Proof.
  unfold ValidateConnector, connectorErrors.
  rewrite !ErrIf_errIf. cbn [fst snd].
  rewrite !AddErr_optErr. f_equal.
  destruct (url_Parse (URL c)) as [u | err].
  - rewrite !ErrIf_errIf. cbn [fst].
    destruct (String.eqb (OFXVersion (Config_ c)) ""); cbn [negb];
      rewrite ?AddErr_optErr, ?app_nil_r; simpl; rewrite <- ?app_assoc; reflexivity.
  - rewrite !AddErr_optErr.
    destruct (String.eqb (OFXVersion (Config_ c)) ""); cbn [negb];
      rewrite ?AddErr_optErr, ?app_nil_r; simpl; rewrite <- ?app_assoc; reflexivity.
Qed.

Lemma errIf_nil cond format : errIf cond format = [] <-> cond = false.
Proof. unfold errIf. destruct cond; split; congruence. Qed.

Lemma optErr_nil o : optErr o = [] <-> o = None.
Proof. destruct o; simpl; split; congruence. Qed.

Lemma eqb_empty_false s : String.eqb s "" = false <-> s <> "".
Proof. apply String.eqb_neq. Qed.

Lemma app_nil_iff (A : Type) (l l' : list A) :
  l ++ l' = [] <-> l = [] /\ l' = [].
Proof.
  split; [apply app_eq_nil|]. intros [-> ->]. reflexivity.
Qed.

Lemma connectorErrors_nil_iff c : connectorErrors c = [] <-> accepted c.
Proof.
  unfold connectorErrors, accepted.
  repeat rewrite app_nil_iff.
  rewrite optErr_nil, !errIf_nil, !eqb_empty_false.
  split.
  - intros (Hi & Hu & Hp & Hn & Hpw & Ha & Hv & Ho & Hx).
    repeat split; try assumption.
    + destruct (url_Parse (URL c)) as [u | err]; [|discriminate].
      exists u. split; [reflexivity|].
      apply errIf_nil in Hp. apply andb_false_iff in Hp.
      destruct Hp as [Hp | Hp]; apply negb_false_iff, String.eqb_eq in Hp; auto.
    + apply andb_false_iff in Hpw. destruct Hpw as [Hpw | Hpw].
      * left. now apply String.eqb_neq.
      * right. now apply negb_false_iff.
    + apply String.eqb_neq in Ho. rewrite Ho in Hx. now apply optErr_nil.
  - intros (Hi & Hu & (u & Hp & Hs) & Hn & Hpw & Ha & Hv & Ho & Hx).
    repeat split; try assumption.
    + rewrite Hp. apply errIf_nil, andb_false_iff.
      destruct Hs as [Hs | Hs]; [left | right];
        apply negb_false_iff, String.eqb_eq; assumption.
    + apply andb_false_iff. destruct Hpw as [Hpw | Hpw].
      * left. now apply String.eqb_neq.
      * right. now apply negb_false_iff.
    + apply String.eqb_neq in Ho. rewrite Ho. now apply optErr_nil.
Qed.

Lemma errIf_true_In format es1 es2 cond :
  cond = true -> In (Errorf format []) (es1 ++ errIf cond format ++ es2).
Proof. intros ->. apply in_or_app. right. simpl. now left. Qed.

Lemma connectorErrors_lists c : lists_violations c (connectorErrors c).
Proof.
  unfold lists_violations, connectorErrors.
  repeat split.
  - intros e He. rewrite He. simpl. now left.
  - intros He. rewrite !in_app_iff. right. left.
    rewrite He. simpl. now left.
  - intros e He. rewrite !in_app_iff. right. right. left.
    rewrite He. simpl. now left.
  - intros u He Hs Hh. rewrite !in_app_iff. right. right. left.
    rewrite He. apply String.eqb_neq in Hs. apply String.eqb_neq in Hh.
    rewrite Hs, Hh. simpl. now left.
  - intros He. rewrite !in_app_iff. do 3 right. left.
    rewrite He. simpl. now left.
  - intros He Hl. rewrite !in_app_iff. do 4 right. left.
    rewrite He, Hl. simpl. now left.
  - intros He. rewrite !in_app_iff. do 5 right. left.
    rewrite He. simpl. now left.
  - intros He. rewrite !in_app_iff. do 6 right. left.
    rewrite He. simpl. now left.
  - intros He. rewrite !in_app_iff. do 7 right. left.
    rewrite He. simpl. now left.
  - intros e Hne He. rewrite !in_app_iff. do 8 right.
    apply String.eqb_neq in Hne. rewrite Hne, He. simpl. now left.
Qed.

(** C9: [ValidateConnector] returns nil exactly when the connector is not
    nil, its institution is valid, its URL is non-empty, parses and has the
    https scheme or the hostname localhost, its username is non-empty, its
    password is non-empty or the URL is a localhost test URL, and its app
    ID, app version and OFX version are non-empty with a parseable OFX
    version; on any other non-nil connector it returns the list of errors,
    which holds the error of every violated condition. *)
Theorem ValidateConnector_accepts_iff :
  (forall connector,
      ValidateConnector connector = None <->
      exists c, connector = Some c /\ accepted c) /\
  (forall c, ~ accepted c ->
             exists es, ValidateConnector (Some c) = Some (ErrList es)) /\
  (forall c es, ValidateConnector (Some c) = Some (ErrList es) ->
                lists_violations c es).
Proof.
  split; [|split].
  - intros [c|].
    + rewrite ValidateConnector_Some, sErrors.ErrOrNil_None, connectorErrors_nil_iff.
      split.
      * intros H. exists c. now split.
      * intros (c' & Hc & H). now inversion Hc; subst.
    + split; [discriminate|]. intros (c & Hc & _). discriminate.
  - intros c Hna. rewrite ValidateConnector_Some.
    destruct (connectorErrors c) as [|e es] eqn:E.
    + exfalso. apply Hna. now apply connectorErrors_nil_iff.
    + exists (e :: es). reflexivity.
  - intros c es H. rewrite ValidateConnector_Some in H.
    pose proof (connectorErrors_lists c) as L.
    destruct (connectorErrors c) as [|e es']; simpl in H; [discriminate|].
    inversion H; subst. exact L.
Qed.

End Validate.

(** *** Statement download *)

(** [ofxgo.SignonRequest], as [addSignonRequest] fills it. *)
Record SignonRequest : Type := {
  ClientUID : string;
  SignonOrg : string;
  SignonFid : string;
  UserID : string;
  UserPass : string
}.

(** [ofxgo.Status] of a signon response. *)
Record Status : Type := {
  Code : Z;
  Message : string
}.

Section Fetch.

(** The statement messages of a request, the body of a response, the times
    of the window, ledger transactions and the first result of the parser
    are carried through unchanged. *)
Variable StatementMessage : Type.
Variable ResponseBody : Type.
Variable Time : Type.
Variable Transaction : Type.
Variable Parsed : Type.

(** [ofxgo.Request]: the zero value has no messages. *)
Record Request : Type := {
  RequestURL : string;
  Signon : option SignonRequest;
  Bank : list StatementMessage;
  CreditCard : list StatementMessage
}.

Record Response : Type := {
  SignonStatus : Status;
  Body : ResponseBody
}.

Definition zeroRequest : Request :=
  {| RequestURL := ""; Signon := None; Bank := []; CreditCard := [] |}.

(** A [Requestor] annotates the request in place and may fail. *)
Definition Requestor := Request -> Time -> Time -> Request * option error.

(** [model.TransactionParser] *)
Definition TransactionParser := Response -> Parsed * list Transaction * option error.

(** [Status.CodeMeaning] of ofxgo and the [%+v] rendering of a request. *)
Variable CodeMeaning : Status -> string + error.
Variable showRequest : Request -> string.

Definition addSignonRequest (connector : directConnect) (req : Request) : Request :=
  let config := Config_ connector in
  {| RequestURL := URL connector;
     Signon := Some {| ClientUID := ClientID config;
                       SignonOrg := Org connector;
                       SignonFid := FID connector;
                       UserID := Username connector;
                       UserPass := Password connector |};
     Bank := Bank req;
     CreditCard := CreditCard req |}.

(** The loop over the requestors: stops at the first error. *)
Fixpoint annotate (requestors : list Requestor) (start end_ : Time)
  (query : Request) : Request + error :=
  match requestors with
  | [] => inl query
  | r :: rest =>
      match r query start end_ with
      | (_, Some err) => inr err
      | (query', None) => annotate rest start end_ query'
      end
  end.

Definition msgInvalidQuery :=
  "Invalid statement query: does not contain any statement requests: %+v".
Definition msgCodeMeaning := "Failed to parse OFX response code".
Definition msgNonzeroSignon := "Nonzero signon status (%d: %s) with message: %s".

(** [func fetchTransactions(connector, start, end, requestors, doRequest, parse)] *)
Definition fetchTransactions (connector : directConnect) (start end_ : Time)
  (requestors : list Requestor) (doRequest : Request -> Response + error)
  (parse : TransactionParser) : list Transaction * option error :=
  match annotate requestors start end_ zeroRequest with
  | inr err => ([], Some err)
  | inl query =>
      if Nat.eqb (List.length (Bank query)) 0 && Nat.eqb (List.length (CreditCard query)) 0
      then ([], Some (Errorf msgInvalidQuery [FStr (showRequest query)]))
      else
        let query := addSignonRequest connector query in
        match doRequest query with
        | inr err => ([], Some err)
        | inl response =>
            let status := SignonStatus response in
            if negb (Z.eqb (Code status) 0) then
              if Z.eqb (Code status) ofxAuthFailed then ([], Some ErrAuthFailed)
              else
                match CodeMeaning status with
                | inr err => ([], Some (Wrap err msgCodeMeaning))
                | inl meaning =>
                    ([], Some (Errorf msgNonzeroSignon
                                 [FInt (Code status); FStr meaning;
                                  FStr (Message status)]))
                end
            else
              let '(_, txns, err) := parse response in
              (txns, err)
        end
  end.

(** The statement requests reached the institution and [response] came
    back. *)
Definition answered (connector : directConnect) (start end_ : Time)
  (requestors : list Requestor) (doRequest : Request -> Response + error)
  (response : Response) : Prop :=
  exists query,
    annotate requestors start end_ zeroRequest = inl query /\
    (Bank query <> [] \/ CreditCard query <> []) /\
    doRequest (addSignonRequest connector query) = inl response.

Lemma fetchTransactions_answered connector start end_ requestors doRequest parse response :
  answered connector start end_ requestors doRequest response ->
  fetchTransactions connector start end_ requestors doRequest parse =
  let status := SignonStatus response in
  if Z.eqb (Code status) 0 then
    (snd (fst (parse response)), snd (parse response))
  else if Z.eqb (Code status) ofxAuthFailed then ([], Some ErrAuthFailed)
  else match CodeMeaning status with
       | inr err => ([], Some (Wrap err msgCodeMeaning))
       | inl meaning =>
           ([], Some (Errorf msgNonzeroSignon
                        [FInt (Code status); FStr meaning; FStr (Message status)]))
       end.
Proof.
  intros (query & Ha & Hne & Hd). unfold fetchTransactions.
  rewrite Ha.
  replace (Nat.eqb (List.length (Bank query)) 0 && Nat.eqb (List.length (CreditCard query)) 0)
    with false.
  2:{ symmetry. apply andb_false_iff.
      destruct Hne as [H | H]; [left | right]; apply Nat.eqb_neq;
        intros L; apply length_zero_iff_nil in L; contradiction. }
  rewrite Hd. cbn zeta.
  destruct (Z.eqb (Code (SignonStatus response)) 0); cbn [negb].
  - destruct (parse response) as [[p txns] err]. reflexivity.
  - reflexivity.
Qed.

(** C3: when the institution answers a statement fetch, [fetchTransactions]
    returns [ErrAuthFailed] if the signon status code is 15500, an error
    other than [ErrAuthFailed] on any other nonzero code, and the
    transactions and error of the parser on code zero; so, unless the
    parser itself hands back [ErrAuthFailed], the result is
    [ErrAuthFailed] if and only if the code is 15500. *)
Theorem fetchTransactions_auth_failed_iff
  connector start end_ requestors doRequest parse response :
  answered connector start end_ requestors doRequest response ->
  let code := Code (SignonStatus response) in
  let result := fetchTransactions connector start end_ requestors doRequest parse in
  (code = 15500%Z -> result = ([], Some ErrAuthFailed)) /\
  (code <> 0%Z -> code <> 15500%Z ->
   exists e, result = ([], Some e) /\ e <> ErrAuthFailed) /\
  (code = 0%Z ->
   result = (snd (fst (parse response)), snd (parse response))) /\
  (snd (parse response) <> Some ErrAuthFailed ->
   (snd result = Some ErrAuthFailed <-> code = 15500%Z)).
Proof.
  intros Hans code result.
  assert (E := fetchTransactions_answered connector start end_ requestors
                 doRequest parse response Hans).
  cbn zeta in E. fold code in E. fold result in E.
  unfold ofxAuthFailed in E.
  repeat split.
  - intros Hc. rewrite E, Hc. reflexivity.
  - intros H0 H1. rewrite E.
    apply Z.eqb_neq in H0. apply Z.eqb_neq in H1. rewrite H0, H1.
    destruct (CodeMeaning (SignonStatus response)) as [meaning | err];
      eexists; (split; [reflexivity | discriminate]).
  - intros Hc. rewrite E, Hc. reflexivity.
  - intros Hr. rewrite E in Hr.
    destruct (Z.eqb_spec code 0) as [H0 | H0]; [simpl in Hr; contradiction|].
    destruct (Z.eqb_spec code 15500) as [H1 | H1]; [assumption|].
    destruct (CodeMeaning (SignonStatus response)); simpl in Hr; discriminate.
  - intros Hc. rewrite E, Hc. reflexivity.
Qed.

(** *** Requests that are never sent, results that are never returned *)

Lemma annotate_app pre rest start end_ query :
  annotate (pre ++ rest) start end_ query =
  match annotate pre start end_ query with
  | inl query' => annotate rest start end_ query'
  | inr err => inr err
  end.
Proof.
  revert query. induction pre as [|r pre IH]; intros query; simpl.
  - reflexivity.
  - destruct (r query start end_) as [query' [err|]]; [reflexivity | apply IH].
Qed.

(** X5: when a requestor fails after the ones before it succeeded, the
    fetch returns no transaction and that very error; the requestors
    behind it, the institution and the parser play no part. *)
Theorem fetchTransactions_requestor_error
  connector start end_ pre r rest doRequest parse query err :
  annotate pre start end_ zeroRequest = inl query ->
  snd (r query start end_) = Some err ->
  fetchTransactions connector start end_ (pre ++ r :: rest) doRequest parse
  = ([], Some err).
Proof.
  intros Hpre Hr. unfold fetchTransactions.
  rewrite annotate_app, Hpre. simpl.
  destruct (r query start end_) as [query' o]. simpl in Hr. subst o.
  reflexivity.
Qed.

(** The requestors leave the query without a statement request. *)
Definition noStatement (requestors : list Requestor) (start end_ : Time) : Prop :=
  exists query,
    annotate requestors start end_ zeroRequest = inl query /\
    Bank query = [] /\ CreditCard query = [].

(** X6: a query without any bank or credit card statement request is
    refused before anything is sent: the result is an error without
    transactions, whatever the institution and the parser would do; an
    empty list of requestors is such a case. *)
Theorem fetchTransactions_without_statement
  connector start end_ requestors doRequest parse :
  requestors = [] \/ noStatement requestors start end_ ->
  exists query,
    annotate requestors start end_ zeroRequest = inl query /\
    fetchTransactions connector start end_ requestors doRequest parse =
    ([], Some (Errorf msgInvalidQuery [FStr (showRequest query)])).
Proof.
  intros H.
  assert (Hno : noStatement requestors start end_).
  { destruct H as [-> | H]; [|assumption].
    exists zeroRequest. repeat split. }
  destruct Hno as (query & Ha & Hb & Hc).
  exists query. split; [assumption|].
  unfold fetchTransactions. rewrite Ha, Hb, Hc. reflexivity.
Qed.

(** X7: transactions are only ever returned for a response whose signon
    status code is zero, and they are the ones the parser read from that
    response. *)
Theorem fetchTransactions_transactions_need_code_zero
  connector start end_ requestors doRequest parse :
  fst (fetchTransactions connector start end_ requestors doRequest parse) <> [] ->
  exists query response,
    annotate requestors start end_ zeroRequest = inl query /\
    doRequest (addSignonRequest connector query) = inl response /\
    Code (SignonStatus response) = 0%Z /\
    fetchTransactions connector start end_ requestors doRequest parse =
    (snd (fst (parse response)), snd (parse response)).
Proof.
  unfold fetchTransactions.
  destruct (annotate requestors start end_ zeroRequest) as [query | err];
    [|intros H; now destruct H].
  destruct (Nat.eqb (List.length (Bank query)) 0 &&
            Nat.eqb (List.length (CreditCard query)) 0);
    [intros H; now destruct H|].
  cbn zeta.
  destruct (doRequest (addSignonRequest connector query)) as [response | err] eqn:Hd;
    [|intros H; now destruct H].
  destruct (Z.eqb_spec (Code (SignonStatus response)) 0) as [H0 | H0]; cbn [negb].
  - intros _. exists query, response. repeat split; try assumption.
    now destruct (parse response) as [[p txns] e].
  - destruct (Z.eqb (Code (SignonStatus response)) ofxAuthFailed);
      [intros H; now destruct H|].
    destruct (CodeMeaning (SignonStatus response)); intros H; now destruct H.
Qed.

(** The signon block that [addSignonRequest] writes for a connector. *)
Definition signonOf (connector : directConnect) : SignonRequest :=
  {| ClientUID := ClientID (Config_ connector);
     SignonOrg := Org connector;
     SignonFid := FID connector;
     UserID := Username connector;
     UserPass := Password connector |}.

(** X8: the only request a fetch hands to [doRequest] is addressed to the
    connector's URL and signed with the connector's organisation, FID,
    user name, password and client ID: two transports that agree on such
    requests give the same fetch. *)
Theorem fetchTransactions_sends_signed_request
  connector start end_ requestors doRequest doRequest' parse :
  (forall query,
      RequestURL query = URL connector ->
      Signon query = Some (signonOf connector) ->
      doRequest query = doRequest' query) ->
  fetchTransactions connector start end_ requestors doRequest parse =
  fetchTransactions connector start end_ requestors doRequest' parse.
Proof.
  intros Hagree. unfold fetchTransactions.
  destruct (annotate requestors start end_ zeroRequest) as [query | err];
    [|reflexivity].
  destruct (Nat.eqb (List.length (Bank query)) 0 &&
            Nat.eqb (List.length (CreditCard query)) 0); [reflexivity|].
  cbn zeta. rewrite (Hagree (addSignonRequest connector query)); reflexivity.
Qed.

(** *** Statement and Verify *)

(** [newSimpleClient] builds the transport for a URL and a configuration,
    or fails; [timeAdd] is [Time.Add] and [now] what [time.Now] returned. *)
Variable newSimpleClient : string -> Config -> (Request -> Response + error) + error.
Variable timeAdd : Time -> Z -> Time.

(** [time.Hour], in nanoseconds. *)
Definition Hour : Z := 3600 * 1000000000.

(** [func Statement(connector, start, end, requestors, parser)] *)
Definition Statement (connector : directConnect) (start end_ : Time)
  (requestors : list Requestor) (parser : TransactionParser)
  : list Transaction * option error :=
  match newSimpleClient (URL connector) (Config_ connector) with
  | inr err => ([], Some err)
  | inl client =>
      fetchTransactions connector start end_ requestors client parser
  end.

(** [func Verify(connector, requestor, parser) error] *)
Definition Verify (connector : directConnect) (requestor : Requestor)
  (parser : TransactionParser) (now : Time) : option error :=
  let end_ := now in
  let start := timeAdd end_ (-24 * Hour) in
  let '(_, err) := Statement connector start end_ [requestor] parser in
  err.

(** [Verify] asks the requestor for one statement over the 24 hours
    that end now and for nothing else: requestors that agree on the empty
    request over that window verify alike; and when the transport cannot
    be built, the error of [newSimpleClient] is the verdict. *)
Lemma Verify_last_day connector (requestor requestor' : Requestor) parser now :
  (requestor zeroRequest (timeAdd now (-24 * Hour)) now =
   requestor' zeroRequest (timeAdd now (-24 * Hour)) now ->
   Verify connector requestor parser now =
   Verify connector requestor' parser now) /\
  (forall err,
      newSimpleClient (URL connector) (Config_ connector) = inr err ->
      Verify connector requestor parser now = Some err).
Proof.
  split.
  - intros H. unfold Verify, Statement, fetchTransactions. cbn zeta.
    destruct (newSimpleClient (URL connector) (Config_ connector));
      [|reflexivity].
    cbn [annotate]. now rewrite H.
  - intros err H. unfold Verify, Statement. now rewrite H.
Qed.

(** What [Verify] returns once the institution answered the request for
    the last day. *)
Lemma Verify_answered connector (requestor : Requestor) parser now client
  query response :
  newSimpleClient (URL connector) (Config_ connector) = inl client ->
  requestor zeroRequest (timeAdd now (-24 * Hour)) now = (query, None) ->
  Bank query <> [] \/ CreditCard query <> [] ->
  client (addSignonRequest connector query) = inl response ->
  Verify connector requestor parser now =
  snd (let status := SignonStatus response in
       if Z.eqb (Code status) 0 then
         (snd (fst (parser response)), snd (parser response))
       else if Z.eqb (Code status) ofxAuthFailed then ([], Some ErrAuthFailed)
       else match CodeMeaning status with
            | inr err => ([], Some (Wrap err msgCodeMeaning))
            | inl meaning =>
                ([], Some (Errorf msgNonzeroSignon
                             [FInt (Code status); FStr meaning;
                              FStr (Message status)]))
            end).
Proof.
  intros Hclient Hreq Hne Hresp. unfold Verify, Statement.
  rewrite Hclient. cbv beta iota zeta.
  rewrite (fetchTransactions_answered connector (timeAdd now (-24 * Hour)) now
             [requestor] client parser response).
  - cbn zeta.
    destruct (Z.eqb (Code (SignonStatus response)) 0); [reflexivity|].
    destruct (Z.eqb (Code (SignonStatus response)) ofxAuthFailed); [reflexivity|].
    destruct (CodeMeaning (SignonStatus response)); reflexivity.
  - exists query. cbn [annotate]. rewrite Hreq. auto.
Qed.

End Fetch.

Arguments RequestURL {StatementMessage} _.
Arguments Signon {StatementMessage} _.
Arguments Bank {StatementMessage} _.
Arguments CreditCard {StatementMessage} _.
Arguments SignonStatus {ResponseBody} _.
Arguments Body {ResponseBody} _.

End Direct.

(** A statement fetch that the institution answers with signon code 15500. *)
Definition rejectingRequestor : Direct.Requestor nat unit :=
  fun query _ _ =>
    ({| Direct.RequestURL := Direct.RequestURL query;
        Direct.Signon := Direct.Signon query;
        Direct.Bank := Direct.Bank query ++ [7];
        Direct.CreditCard := Direct.CreditCard query |}, None).

Definition rejectingInstitution (_ : Direct.Request nat)
  : Direct.Response unit + error :=
  inl {| Direct.SignonStatus := {| Direct.Code := 15500;
                                   Direct.Message := "signon invalid" |};
         Direct.Body := tt |}.

Definition exampleConnector : Direct.directConnect :=
  {| Direct.Institution := {| Direct.InstDescription := "Example Bank";
                              Direct.InstFID := "1234";
                              Direct.InstOrg := "EXB" |};
     Direct.ConnectorURL := "https://ofx.example.com";
     Direct.ConnectorUsername := "alice";
     Direct.ConnectorPassword := "wrong";
     Direct.ConnectorConfig := {| Direct.AppID := "QWIN";
                                  Direct.AppVersion := "2500";
                                  Direct.OFXVersion := "102";
                                  Direct.ClientID := "" |} |}.

Lemma fetchTransactions_auth_failed_iff_witness :
  Direct.fetchTransactions nat unit unit nat unit
    (fun _ => inl "unknown") (fun _ => "")
    exampleConnector tt tt [rejectingRequestor] rejectingInstitution
    (fun _ => (tt, [], None))
  = ([], Some ErrAuthFailed).
Proof.
  refine (proj1 (Direct.fetchTransactions_auth_failed_iff nat unit unit nat unit
            (fun _ => inl "unknown") (fun _ => "")
            exampleConnector tt tt [rejectingRequestor] rejectingInstitution
            (fun _ => (tt, [], None))
            {| Direct.SignonStatus := {| Direct.Code := 15500;
                                         Direct.Message := "signon invalid" |};
               Direct.Body := tt |} _) _).
  - eexists. split; [reflexivity|]. split; [|reflexivity].
    left. simpl. discriminate.
  - reflexivity.
Defined.

(** ** Package server: the background sync task of [Run] (server.go) *)
Module SyncLoop.

(** What the [select] of the ticker loop receives: the server is done, or
    the ticker fires and [runSync] returns [outcome]. *)
Inductive event : Type :=
| Done
| Tick (outcome : option error).

(** Where the goroutine stands once the events are consumed: how many times
    [runSync] ran, the error sent on [errs], and whether the loop is still
    waiting in its [select]. *)
Record loopState : Type := {
  cycles : nat;
  sent : option error;
  waiting : bool
}.

(** The [for { select { ... } }] loop. *)
Fixpoint tickerLoop (events : list event) (ran : nat) : loopState :=
  match events with
  | [] => {| cycles := ran; sent := None; waiting := true |}
  | Done :: _ => {| cycles := ran; sent := None; waiting := false |}
  | Tick outcome :: rest =>
      match outcome with
      | Some err => {| cycles := S ran; sent := Some err; waiting := false |}
      | None => tickerLoop rest (S ran)
      end
  end.

(** The goroutine: one sync at start, then the ticker loop. *)
Definition syncTask (first : option error) (events : list event) : loopState :=
  match first with
  | Some err =>
      if negb (isLedgerError err)
      then {| cycles := 1; sent := Some err; waiting := false |}
      else tickerLoop events 1
  | None => tickerLoop events 1
  end.

(** The start-up sync keeps the loop alive after a partial error. *)
Lemma syncTask_first_partial msg events :
  syncTask (Some (LedgerError msg)) events = tickerLoop events 1.
Proof. reflexivity. Qed.

(** A scheduled sync that returns any error ends the loop. *)
Lemma tickerLoop_error_halts err rest ran :
  tickerLoop (Tick (Some err) :: rest) ran =
  {| cycles := S ran; sent := Some err; waiting := false |}.
Proof. reflexivity. Qed.

(** C2 on the code: after a clean start, a scheduled cycle that ends in a
    partial error sends it on [errs] and leaves the loop, so the cycle
    scheduled next never runs: two syncs ran, not three. *)
Theorem syncTask_partial_tick_halts :
  syncTask None [Tick (Some (LedgerError "1 account failed")); Tick None] =
  {| cycles := 2;
     sent := Some (LedgerError "1 account failed");
     waiting := false |}.
Proof. reflexivity. Qed.

(** *** The loop over arbitrary schedules *)

(** Ticks whose sync succeeds. *)
Definition quiet (events : list event) : Prop :=
  Forall (fun e => e = Tick None) events.

(** The outcomes of the syncs that the ticks of a schedule stand for. *)
Fixpoint tickOutcomes (events : list event) : list (option error) :=
  match events with
  | [] => []
  | Done :: rest => tickOutcomes rest
  | Tick outcome :: rest => outcome :: tickOutcomes rest
  end.

Lemma tickerLoop_quiet_prefix pre : forall rest ran,
  quiet pre ->
  tickerLoop (pre ++ rest) ran = tickerLoop rest (ran + List.length pre).
Proof.
  induction pre as [|e pre IH]; intros rest ran Hq; simpl.
  - now rewrite Nat.add_0_r.
  - inversion Hq as [|? ? He Hpre]; subst. simpl.
    rewrite IH by assumption. f_equal. lia.
Qed.

(** X1: the ticker loop runs one sync per tick while they succeed, and at
    the first tick whose sync returns an error it sends that error and
    returns; whatever is scheduled afterwards has no effect. *)
Theorem tickerLoop_stops_at_first_failure pre err rest ran :
  quiet pre ->
  tickerLoop (pre ++ Tick (Some err) :: rest) ran =
  {| cycles := ran + List.length pre + 1; sent := Some err; waiting := false |}.
Proof.
  intros Hq. rewrite tickerLoop_quiet_prefix by assumption. simpl.
  f_equal. lia.
Qed.

(** X2: when [done] arrives the loop returns without sending anything, and
    no tick scheduled after it runs a sync. *)
Theorem tickerLoop_done_stops pre rest ran :
  quiet pre ->
  tickerLoop (pre ++ Done :: rest) ran =
  {| cycles := ran + List.length pre; sent := None; waiting := false |}.
Proof.
  intros Hq. rewrite tickerLoop_quiet_prefix by assumption. reflexivity.
Qed.

Lemma tickerLoop_sent events : forall ran err,
  sent (tickerLoop events ran) = Some err ->
  exists k,
    cycles (tickerLoop events ran) = ran + k + 1 /\
    nth_error (tickOutcomes events) k = Some (Some err) /\
    k < List.length events /\
    waiting (tickerLoop events ran) = false.
Proof.
  induction events as [|e events IH]; intros ran err H; simpl in *.
  - discriminate.
  - destruct e as [|[e|]]; simpl in *.
    + discriminate.
    + inversion H; subst. exists 0. repeat split; simpl; lia.
    + destruct (IH (S ran) err H) as (k & Hc & Hn & Hk & Hw).
      exists (S k). repeat split; simpl; try assumption; lia.
Qed.

(** X3: an error that the sync task sends on [errs] is the error returned
    by the last sync it ran, the task has then left its loop, and it ran
    at most one sync more than there were events. *)
Theorem syncTask_sends_last_outcome first events err :
  sent (syncTask first events) = Some err ->
  nth_error (first :: tickOutcomes events)
    (cycles (syncTask first events) - 1) = Some (Some err) /\
  waiting (syncTask first events) = false /\
  cycles (syncTask first events) <= 1 + List.length events.
Proof.
  unfold syncTask. intros H.
  assert (Hloop : sent (tickerLoop events 1) = Some err ->
                  nth_error (first :: tickOutcomes events)
                    (cycles (tickerLoop events 1) - 1) = Some (Some err) /\
                  waiting (tickerLoop events 1) = false /\
                  cycles (tickerLoop events 1) <= 1 + List.length events).
  { intros Hs. destruct (tickerLoop_sent events 1 err Hs) as (k & Hc & Hn & Hk & Hw).
    rewrite Hc. replace (1 + k + 1 - 1) with (S k) by lia.
    repeat split; simpl; try assumption; lia. }
  destruct first as [e|]; [|now apply Hloop].
  destruct (isLedgerError e); cbn [negb] in *; [now apply Hloop|].
  simpl in *. inversion H; subst. repeat split; lia.
Qed.

(** X4: while the start-up sync succeeds or fails only partially and every
    scheduled sync succeeds, the task stays in its loop, has run one sync
    per tick besides the first, and has sent nothing. *)
Theorem syncTask_quiet_keeps_waiting first events :
  (forall err, first = Some err -> isLedgerError err = true) ->
  quiet events ->
  syncTask first events =
  {| cycles := 1 + List.length events; sent := None; waiting := true |}.
Proof.
  intros Hfirst Hq.
  assert (E : syncTask first events = tickerLoop events 1).
  { unfold syncTask. destruct first as [e|]; [|reflexivity].
    now rewrite (Hfirst e eq_refl). }
  rewrite E, <- (app_nil_r events), tickerLoop_quiet_prefix by assumption.
  rewrite app_nil_r. reflexivity.
Qed.

End SyncLoop.

(** ** Package server: the account handlers (accounts.go) *)
Module Server.

Definition StatusOK : Z := 200.
Definition StatusNoContent : Z := 204.
Definition StatusBadRequest : Z := 400.
Definition StatusUnauthorized : Z := 401.
Definition StatusNotFound : Z := 404.
Definition StatusInternalServerError : Z := 500.

(** What a handler leaves in the gin context: the status and, when it
    aborted through [abortWithClientError], the error of the JSON body. *)
Record response : Type := {
  status : Z;
  failure : option error
}.

Definition abortWithClientError (code : Z) (err : error) : response :=
  {| status := code; failure := Some err |}.

Definition AbortWithStatus (code : Z) : response :=
  {| status := code; failure := None |}.

Definition Status (code : Z) : response :=
  {| status := code; failure := None |}.

(** [web.PasswordConnector]: the handlers read and set its password. *)
Record webConnect : Type := {
  WebPassword : string
}.

(** The dynamic type behind [account.Institution()]. *)
Inductive institution : Type :=
| DirectInstitution (c : Direct.directConnect)
| WebInstitution (w : webConnect)
| PlainInstitution.

(** A [model.Account]: [IsRequestor] tells whether its dynamic type
    implements [direct.Requestor]. *)
Record Account : Type := {
  ID : string;
  Description : string;
  AccountInstitution : institution;
  IsRequestor : bool
}.

Definition withInstitution (a : Account) (i : institution) : Account :=
  {| ID := ID a;
     Description := Description a;
     AccountInstitution := i;
     IsRequestor := IsRequestor a |}.

Section Handlers.

(** The account store, the decoding and validation of package [client],
    the sign-in check of package [direct], the ledger and the ledger file
    are collaborators of the handlers.  [StoreGet] answers with the stored
    account, with nothing when there is none, or with an error. *)
Variable Store : Type.
Variable StoreGet : Store -> string -> option Account + error.
Variable StoreUpdate : Store -> string -> Account -> Store * option error.
Variable UnmarshalAccount : string -> Account + error.
Variable ValidateAccount : Account -> option error.
Variable Verify : Direct.directConnect -> Account -> option error.
Variable IsLocalhostTestURL : string -> bool.
Variable LedgerAccountName : Account -> string.
Variable Ledger : Type.
Variable UpdateAccount : Ledger -> string -> string -> Ledger * option error.
Variable File : Type.
Variable LedgerFile : Ledger -> File -> File * option error.

(** [func readAndValidateAccount(r, accountStore) (model.Account, error)];
    [body] is what [ioutil.ReadAll] returned.  The early exits return no
    account ([inr]); the last line returns the account together with the
    verdict of [client.ValidateAccount]. *)
Definition readAndValidateAccount (body : string + error) (accountStore : Store)
  : Account * option error + error :=
  match body with
  | inr err => inr err
  | inl b =>
      match UnmarshalAccount b with
      | inr err => inr err
      | inl account =>
          let filled : Account + error :=
            match AccountInstitution account with
            | DirectInstitution connector =>
                if String.eqb (Direct.Password connector) "" then
                  match StoreGet accountStore (ID account) with
                  | inr err => inr err
                  | inl (Some currentAccount) =>
                      match AccountInstitution currentAccount with
                      | DirectInstitution currentConn =>
                          inl (withInstitution account
                                 (DirectInstitution
                                    (Direct.SetPassword connector
                                       (Direct.Password currentConn))))
                      | _ => inl account
                      end
                  | inl None => inl account
                  end
                else inl account
            | WebInstitution connector =>
                if String.eqb (WebPassword connector) "" then
                  match StoreGet accountStore (ID account) with
                  | inr err => inr err
                  | inl (Some currentAccount) =>
                      match AccountInstitution currentAccount with
                      | WebInstitution currentConn =>
                          inl (withInstitution account
                                 (WebInstitution
                                    {| WebPassword := WebPassword currentConn |}))
                      | _ => inl account
                      end
                  | inl None => inl account
                  end
                else inl account
            | PlainInstitution => inl account
            end in
          match filled with
          | inr err => inr err
          | inl account => inl (account, ValidateAccount account)
          end
      end
  end.

(** The error with which reading the submitted account fails, if any. *)
Definition readFailure (body : string + error) (accountStore : Store)
  : option error :=
  match readAndValidateAccount body accountStore with
  | inr err => Some err
  | inl (_, verdict) => verdict
  end.

Definition errNoDirectConnect :=
  Errorf "Cannot verify account: no direct connect details" [].
Definition errInvalidType :=
  Errorf "Cannot verify account: account is invalid type: %T" [].
Definition errPasswordRequired :=
  Errorf "Institution password is required" [].

(** The tail of [verifyAccount], after [direct.Verify] succeeded. *)
Definition checkPassword (accountStore : Store) (account : Account)
  (connector : Direct.directConnect) : response :=
  let pass := Direct.Password connector in
  if String.eqb pass "" then
    match StoreGet accountStore (ID account) with
    | inr err => abortWithClientError StatusInternalServerError err
    | inl current =>
        let isLocal := IsLocalhostTestURL (Direct.URL connector) in
        if negb isLocal then
          match current with
          | None => abortWithClientError StatusBadRequest errPasswordRequired
          | Some currentAccount =>
              let pass :=
                match AccountInstitution currentAccount with
                | DirectInstitution currentConnector =>
                    Direct.Password currentConnector
                | _ => pass
                end in
              if String.eqb pass ""
              then abortWithClientError StatusBadRequest errPasswordRequired
              else Status StatusNoContent
          end
        else Status StatusNoContent
    end
  else Status StatusNoContent.

(** [func verifyAccount(accountStore) gin.HandlerFunc] *)
Definition verifyAccount (accountStore : Store) (body : string + error) : response :=
  match readAndValidateAccount body accountStore with
  | inr err => abortWithClientError StatusBadRequest err
  | inl (_, Some err) => abortWithClientError StatusBadRequest err
  | inl (account, None) =>
      match AccountInstitution account with
      | DirectInstitution connector =>
          if negb (IsRequestor account)
          then abortWithClientError StatusBadRequest errInvalidType
          else
            match Verify connector account with
            | Some err =>
                if isAuthFailed err
                then abortWithClientError StatusUnauthorized err
                else abortWithClientError StatusInternalServerError err
            | None => checkPassword accountStore account connector
            end
      | _ => abortWithClientError StatusBadRequest errNoDirectConnect
      end
  end.

(** The state the [updateAccount] handler works on. *)
Record world : Type := {
  accountStore : Store;
  ldg : Ledger;
  ledgerFile : File
}.

(** The calls a handler makes that write to the store, the ledger or the
    ledger file. *)
Inductive effect : Type :=
| StoreUpdated (id : string)
| LedgerRenamed (oldName newName : string)
| LedgerFileWritten.

Definition isLedgerEffect (e : effect) : bool :=
  match e with
  | StoreUpdated _ => false
  | LedgerRenamed _ _ => true
  | LedgerFileWritten => true
  end.

(** [func updateAccount(accountStore, ledgerFileName, ldg) gin.HandlerFunc] *)
Definition updateAccount (w : world) (body : string + error)
  : world * list effect * response :=
  match readAndValidateAccount body (accountStore w) with
  | inr err => (w, [], abortWithClientError StatusBadRequest err)
  | inl (_, Some err) => (w, [], abortWithClientError StatusBadRequest err)
  | inl (account, None) =>
      match StoreGet (accountStore w) (ID account) with
      | inr err => (w, [], abortWithClientError StatusInternalServerError err)
      | inl None => (w, [], AbortWithStatus StatusNotFound)
      | inl (Some currentAccount) =>
          let '(store', updateErr) :=
            StoreUpdate (accountStore w) (ID account) account in
          let w1 := {| accountStore := store'; ldg := ldg w;
                       ledgerFile := ledgerFile w |} in
          let log1 := [StoreUpdated (ID account)] in
          match updateErr with
          | Some err =>
              (w1, log1, abortWithClientError StatusInternalServerError err)
          | None =>
              let oldAccountName := LedgerAccountName currentAccount in
              let newAccountName := LedgerAccountName account in
              if negb (String.eqb oldAccountName newAccountName) then
                let '(ldg', renameErr) :=
                  UpdateAccount (ldg w1) oldAccountName newAccountName in
                let w2 := {| accountStore := store'; ldg := ldg';
                             ledgerFile := ledgerFile w |} in
                let log2 := log1 ++ [LedgerRenamed oldAccountName newAccountName] in
                match renameErr with
                | Some err =>
                    (w2, log2, abortWithClientError StatusInternalServerError err)
                | None =>
                    let '(file', writeErr) := LedgerFile (ldg w2) (ledgerFile w2) in
                    let w3 := {| accountStore := store'; ldg := ldg';
                                 ledgerFile := file' |} in
                    let log3 := log2 ++ [LedgerFileWritten] in
                    match writeErr with
                    | Some err =>
                        (w3, log3,
                         abortWithClientError StatusInternalServerError err)
                    | None => (w3, log3, Status StatusOK)
                    end
                end
              else (w1, log1, Status StatusOK)
          end
      end
  end.

Lemma checkPassword_status store account connector :
  let r := checkPassword store account connector in
  status r = StatusNoContent \/
  (status r = StatusBadRequest /\ failure r = Some errPasswordRequired) \/
  (status r = StatusInternalServerError /\
   exists err, StoreGet store (ID account) = inr err /\ failure r = Some err).
Proof.
  unfold checkPassword.
  destruct (String.eqb (Direct.Password connector) ""); [|now left].
  destruct (StoreGet store (ID account)) as [current | err].
  - destruct (negb (IsLocalhostTestURL (Direct.URL connector))); [|now left].
    destruct current as [currentAccount|].
    + match goal with
      | |- context [String.eqb ?p ""] => destruct (String.eqb p "")
      end; [right; left; now split | now left].
    + right; left; now split.
  - right; right. split; [reflexivity|]. exists err. now split.
Qed.

(** The statuses of [verifyAccount] by the origin of the failure: it
    answers 400 with the error
    whenever reading, decoding, completing (the lookup of the stored
    account included) or validating the submitted account fails; once the
    account is read, an [ErrAuthFailed] of the sign-in answers 401 and any
    other sign-in error 500; 401 is only ever answered with
    [ErrAuthFailed]; 500 is answered only for a sign-in error that is not
    [ErrAuthFailed] or for a failed store lookup after the sign-in; and no
    status other than 204, 400, 401 and 500 is answered. *)
Theorem verifyAccount_status_by_origin (store : Store) (body : string + error) :
  let r := verifyAccount store body in
  (forall err, readFailure body store = Some err ->
               r = abortWithClientError StatusBadRequest err) /\
  (forall account connector err,
      readAndValidateAccount body store = inl (account, None) ->
      AccountInstitution account = DirectInstitution connector ->
      IsRequestor account = true ->
      Verify connector account = Some err ->
      r = abortWithClientError
            (if isAuthFailed err then StatusUnauthorized
             else StatusInternalServerError) err) /\
  (status r = StatusUnauthorized -> failure r = Some ErrAuthFailed) /\
  (status r = StatusInternalServerError ->
   exists account connector err,
     readAndValidateAccount body store = inl (account, None) /\
     AccountInstitution account = DirectInstitution connector /\
     failure r = Some err /\
     ((Verify connector account = Some err /\ err <> ErrAuthFailed) \/
      (Verify connector account = None /\
       StoreGet store (ID account) = inr err))) /\
  (status r = StatusNoContent \/ status r = StatusBadRequest \/
   status r = StatusUnauthorized \/ status r = StatusInternalServerError).
Proof.
  cbn zeta. unfold verifyAccount, readFailure.
  destruct (readAndValidateAccount body store) as [[account [verr|]] | rerr].
  - repeat split; try discriminate; auto.
    intros err H; inversion H; reflexivity.
  - destruct (AccountInstitution account) as [connector | w |] eqn:Hinst.
    + destruct (IsRequestor account) eqn:Hreq; cbn [negb].
      * destruct (Verify connector account) as [err|] eqn:Hver.
        -- destruct (isAuthFailed err) eqn:Hauth.
           ++ apply isAuthFailed_iff in Hauth. subst err.
              repeat split; try discriminate; auto.
              intros a c e Ha Hc _ Hv.
              inversion Ha; subst a. rewrite Hinst in Hc. inversion Hc; subst c.
              rewrite Hver in Hv. inversion Hv; subst e. reflexivity.
           ++ repeat split; try discriminate; auto.
              ** intros a c e Ha Hc _ Hv.
                 inversion Ha; subst a. rewrite Hinst in Hc. inversion Hc; subst c.
                 rewrite Hver in Hv. inversion Hv; subst e.
                 rewrite Hauth. reflexivity.
              ** intros _. exists account, connector, err.
                 repeat split; auto. left. split; [exact Hver|].
                 intros ->. discriminate.
        -- pose proof (checkPassword_status store account connector) as Hp.
           cbn zeta in Hp.
           repeat split; try discriminate.
           ++ intros a c e Ha Hc _ Hv.
              inversion Ha; subst a. rewrite Hinst in Hc. inversion Hc; subst c.
              rewrite Hver in Hv. discriminate.
           ++ destruct Hp as [Hp | [[Hp _] | [Hp _]]]; rewrite Hp; discriminate.
           ++ intros H500.
              destruct Hp as [Hp | [[Hp _] | [_ (err & Hget & Hf)]]];
                try (rewrite Hp in H500; discriminate).
              exists account, connector, err. repeat split; auto.
           ++ destruct Hp as [Hp | [[Hp _] | [Hp _]]]; rewrite Hp; auto.
      * repeat split; try discriminate; auto.
        intros a c e Ha Hc Hr _. inversion Ha; subst a. congruence.
    + repeat split; try discriminate; auto.
      intros a c e Ha Hc. inversion Ha; subst a. congruence.
    + repeat split; try discriminate; auto.
      intros a c e Ha Hc. inversion Ha; subst a. congruence.
  - repeat split; try discriminate; auto.
    intros err H; inversion H; reflexivity.
Qed.

(** C8: in [updateAccount], when the submitted account reads and validates,
    the stored account exists and both derive the same ledger account
    name, the ledger and the ledger file are left as they were, the only
    call that writes is the update of the account store, and the store is
    the one that update returns; and whenever the handler renames in the
    ledger or writes the ledger file, the stored and the submitted account
    derive different ledger account names. *)
Theorem updateAccount_same_name_frame (w : world) (body : string + error) :
  let '(w', log, r) := updateAccount w body in
  (forall account currentAccount,
      readAndValidateAccount body (accountStore w) = inl (account, None) ->
      StoreGet (accountStore w) (ID account) = inl (Some currentAccount) ->
      LedgerAccountName currentAccount = LedgerAccountName account ->
      ldg w' = ldg w /\
      ledgerFile w' = ledgerFile w /\
      log = [StoreUpdated (ID account)] /\
      accountStore w' = fst (StoreUpdate (accountStore w) (ID account) account)) /\
  (forall e, In e log -> isLedgerEffect e = true ->
     exists account currentAccount,
       readAndValidateAccount body (accountStore w) = inl (account, None) /\
       StoreGet (accountStore w) (ID account) = inl (Some currentAccount) /\
       LedgerAccountName currentAccount <> LedgerAccountName account).
Proof.
  unfold updateAccount.
  destruct (readAndValidateAccount body (accountStore w))
    as [[account [verr|]] | rerr].
  - split; [intros a c Ha; discriminate Ha | intros e []].
  - destruct (StoreGet (accountStore w) (ID account))
      as [[current|] | gerr] eqn:Hget.
    + destruct (StoreUpdate (accountStore w) (ID account) account)
        as [store' updateErr] eqn:Hupd.
      destruct updateErr as [uerr|].
      * split.
        -- intros a c Ha Hc _. inversion Ha; subst a.
           cbn [ldg ledgerFile accountStore]. rewrite Hupd. auto.
        -- intros e [<- | []]. discriminate.
      * cbn zeta.
        destruct (String.eqb_spec (LedgerAccountName current)
                    (LedgerAccountName account)) as [Heq | Hne]; cbn [negb].
        -- split.
           ++ intros a c Ha Hc _. inversion Ha; subst a.
              cbn [ldg ledgerFile accountStore]. rewrite Hupd. auto.
           ++ intros e [<- | []]. discriminate.
        -- cbn [ldg ledgerFile].
           assert (Hframe : forall a c,
                      @inl (Account * option error) error (account, None)
                      = inl (a, None) ->
                      StoreGet (accountStore w) (ID a) = inl (Some c) ->
                      LedgerAccountName c = LedgerAccountName a -> False).
           { intros a c Ha Hc Hn. inversion Ha; subst a.
             rewrite Hget in Hc. inversion Hc; subst c. contradiction. }
           destruct (UpdateAccount (ldg w) (LedgerAccountName current)
                       (LedgerAccountName account)) as [ldg' renameErr].
           destruct renameErr as [rerr|].
           ++ split.
              ** intros a c Ha Hc Hn. destruct (Hframe a c Ha Hc Hn).
              ** intros e _ _. exists account, current. auto.
           ++ destruct (LedgerFile ldg' (ledgerFile w)) as [file' writeErr].
              destruct writeErr as [werr|].
              ** split.
                 --- intros a c Ha Hc Hn. destruct (Hframe a c Ha Hc Hn).
                 --- intros e _ _. exists account, current. auto.
              ** split.
                 --- intros a c Ha Hc Hn. destruct (Hframe a c Ha Hc Hn).
                 --- intros e _ _. exists account, current. auto.
    + split; [|intros e []].
      intros a c Ha Hc. inversion Ha; subst a. rewrite Hget in Hc. discriminate Hc.
    + split; [|intros e []].
      intros a c Ha Hc. inversion Ha; subst a. rewrite Hget in Hc. discriminate Hc.
  - split; [intros a c Ha; discriminate Ha | intros e []].
Qed.

(** *** Filling in the stored password *)

(** The submitted account leaves its password blank. *)
Definition needsStoredPassword (account : Account) : bool :=
  match AccountInstitution account with
  | DirectInstitution connector => String.eqb (Direct.Password connector) ""
  | WebInstitution connector => String.eqb (WebPassword connector) ""
  | PlainInstitution => false
  end.

(** X18: an account of a direct connector that is submitted without a
    password, while the store holds that account with a direct connector,
    is completed with the stored password before it is validated; nothing
    else of the submitted account changes. *)
Theorem readAndValidateAccount_fills_stored_password
  (b : string) (store : Store) (account currentAccount : Account)
  (connector currentConn : Direct.directConnect) :
  UnmarshalAccount b = inl account ->
  AccountInstitution account = DirectInstitution connector ->
  Direct.Password connector = "" ->
  StoreGet store (ID account) = inl (Some currentAccount) ->
  AccountInstitution currentAccount = DirectInstitution currentConn ->
  exists filled filledConn,
    readAndValidateAccount (inl b) store = inl (filled, ValidateAccount filled) /\
    AccountInstitution filled = DirectInstitution filledConn /\
    Direct.Password filledConn = Direct.Password currentConn /\
    Direct.URL filledConn = Direct.URL connector /\
    Direct.Username filledConn = Direct.Username connector /\
    Direct.Config_ filledConn = Direct.Config_ connector /\
    Direct.Institution filledConn = Direct.Institution connector /\
    ID filled = ID account /\
    Description filled = Description account /\
    IsRequestor filled = IsRequestor account.
Proof.
  intros Hu Hi Hp Hg Hc.
  exists (withInstitution account
            (DirectInstitution
               (Direct.SetPassword connector (Direct.Password currentConn)))),
         (Direct.SetPassword connector (Direct.Password currentConn)).
  unfold readAndValidateAccount. rewrite Hu, Hi, Hp, Hg, Hc.
  repeat split.
Qed.

(** X19: an account submitted with its password, or without a connector
    that has one, is validated as it was decoded, and the account store is
    not consulted. *)
Theorem readAndValidateAccount_password_given
  (b : string) (store : Store) (account : Account) :
  UnmarshalAccount b = inl account ->
  needsStoredPassword account = false ->
  readAndValidateAccount (inl b) store = inl (account, ValidateAccount account).
Proof.
  intros Hu Hn. unfold readAndValidateAccount, needsStoredPassword in *.
  rewrite Hu. destruct (AccountInstitution account); try rewrite Hn; reflexivity.
Qed.

(** *** What [updateAccount] leaves behind *)

(** X20: when [updateAccount] answers 400 or 404, nothing was written: the
    store, the ledger and the ledger file are as they were.  It answers
    with no status other than 200, 400, 404 and 500. *)
Theorem updateAccount_rejected_leaves_world (w : world) (body : string + error) :
  let '(w', log, r) := updateAccount w body in
  (status r = StatusBadRequest \/ status r = StatusNotFound ->
   w' = w /\ log = []) /\
  (status r = StatusOK \/ status r = StatusBadRequest \/
   status r = StatusNotFound \/ status r = StatusInternalServerError).
Proof.
  unfold updateAccount.
  destruct (readAndValidateAccount body (accountStore w))
    as [[account [verr|]] | rerr];
    [ simpl; now auto 6 | | simpl; now auto 6 ].
  destruct (StoreGet (accountStore w) (ID account)) as [[current|] | gerr];
    [ | simpl; now auto 6
      | simpl; split; [intros [H | H]; discriminate | now auto 6] ].
  destruct (StoreUpdate (accountStore w) (ID account) account)
    as [store' [uerr|]];
    [ simpl; split; [intros [H | H]; discriminate | now auto 6] | ].
  cbv zeta.
  destruct (negb (String.eqb (LedgerAccountName current)
                    (LedgerAccountName account)));
    [ | simpl; split; [intros [H | H]; discriminate | now auto 6] ].
  cbn [ldg ledgerFile].
  destruct (UpdateAccount (ldg w) (LedgerAccountName current)
              (LedgerAccountName account)) as [ldg' [rerr|]];
    [ simpl; split; [intros [H | H]; discriminate | now auto 6] | ].
  destruct (LedgerFile ldg' (ledgerFile w)) as [file' [werr|]];
    simpl; (split; [intros [H | H]; discriminate | now auto 6]).
Qed.

(** X21: when the rename in the ledger fails, [updateAccount] answers 500
    with that error although the account store already holds the
    submitted account; the ledger file is not written. *)
Theorem updateAccount_rename_failure (w : world) (body : string + error)
  (account currentAccount : Account) (store' : Store) (ldg' : Ledger)
  (err : error) :
  readAndValidateAccount body (accountStore w) = inl (account, None) ->
  StoreGet (accountStore w) (ID account) = inl (Some currentAccount) ->
  StoreUpdate (accountStore w) (ID account) account = (store', None) ->
  LedgerAccountName currentAccount <> LedgerAccountName account ->
  UpdateAccount (ldg w) (LedgerAccountName currentAccount)
    (LedgerAccountName account) = (ldg', Some err) ->
  updateAccount w body =
  ({| accountStore := store'; ldg := ldg'; ledgerFile := ledgerFile w |},
   [StoreUpdated (ID account);
    LedgerRenamed (LedgerAccountName currentAccount) (LedgerAccountName account)],
   abortWithClientError StatusInternalServerError err).
Proof.
  intros Hr Hg Hu Hn Hren. unfold updateAccount.
  rewrite Hr, Hg, Hu. cbv zeta.
  apply String.eqb_neq in Hn. rewrite Hn. cbn [negb ldg].
  rewrite Hren. reflexivity.
Qed.

(** X22: the ledger file is written only as the last of three steps: after
    the store took the submitted account and after the rename in the
    ledger succeeded; what is written is the renamed ledger. *)
Theorem updateAccount_writes_renamed_ledger (w : world) (body : string + error) :
  let '(w', log, r) := updateAccount w body in
  In LedgerFileWritten log ->
  exists account currentAccount,
    readAndValidateAccount body (accountStore w) = inl (account, None) /\
    StoreGet (accountStore w) (ID account) = inl (Some currentAccount) /\
    snd (StoreUpdate (accountStore w) (ID account) account) = None /\
    UpdateAccount (ldg w) (LedgerAccountName currentAccount)
      (LedgerAccountName account) = (ldg w', None) /\
    ledgerFile w' = fst (LedgerFile (ldg w') (ledgerFile w)) /\
    log = [StoreUpdated (ID account);
           LedgerRenamed (LedgerAccountName currentAccount)
             (LedgerAccountName account);
           LedgerFileWritten].
Proof.
  unfold updateAccount.
  destruct (readAndValidateAccount body (accountStore w))
    as [[account [verr|]] | rerr]; simpl; try tauto.
  destruct (StoreGet (accountStore w) (ID account))
    as [[current|] | gerr] eqn:Hget; simpl; try tauto.
  destruct (StoreUpdate (accountStore w) (ID account) account)
    as [store' [uerr|]] eqn:Hupd; simpl.
  - intros [H | []]. discriminate.
  - destruct (negb (String.eqb (LedgerAccountName current)
                      (LedgerAccountName account))).
    + destruct (UpdateAccount (ldg w) (LedgerAccountName current)
                  (LedgerAccountName account)) as [ldg' [rerr|]] eqn:Hren; simpl.
      * intros [H | [H | []]]; discriminate.
      * destruct (LedgerFile ldg' (ledgerFile w)) as [file' [werr|]] eqn:Hw;
          simpl; intros _; exists account, current; rewrite Hupd, Hw;
          repeat split; assumption.
    + simpl. intros [H | []]. discriminate.
Qed.

(** *** Adding and removing accounts *)

Variable StoreAdd : Store -> Account -> Store * option error.
Variable StoreRemove : Store -> string -> Store * option error.


(** [func removeAccount(accountStore) gin.HandlerFunc]; [accountID] is the
    query parameter [id]. *)
Definition removeAccount (store : Store) (accountID : string) : Store * response :=
  match StoreRemove store accountID with
  | (store', Some err) =>
      (store', abortWithClientError StatusInternalServerError err)
  | (store', None) => (store', Status StatusNoContent)
  end.

(** [func getAccount(accountStore) gin.HandlerFunc]; the account is the
    JSON body of the answer. *)
Definition getAccount (store : Store) (accountID : string)
  : response * option Account :=
  match StoreGet store accountID with
  | inr err => (abortWithClientError StatusInternalServerError err, None)
  | inl None => (AbortWithStatus StatusNotFound, None)
  | inl (Some account) => (Status StatusOK, Some account)
  end.


(** *** When [verifyAccount] succeeds *)

(** A direct account that comes out of [readAndValidateAccount] with a
    blank password has no stored password to fall back on. *)
Lemma read_blank_password (body : string + error) (store : Store)
  (account : Account) (verdict : option error) (connector : Direct.directConnect) :
  readAndValidateAccount body store = inl (account, verdict) ->
  AccountInstitution account = DirectInstitution connector ->
  Direct.Password connector = "" ->
  StoreGet store (ID account) = inl None \/
  exists currentAccount,
    StoreGet store (ID account) = inl (Some currentAccount) /\
    forall currentConn,
      AccountInstitution currentAccount = DirectInstitution currentConn ->
      Direct.Password currentConn = "".
Proof.
  unfold readAndValidateAccount.
  destruct body as [b | rerr]; [|discriminate].
  destruct (UnmarshalAccount b) as [a0 | uerr]; [|discriminate].
  destruct (AccountInstitution a0) as [c0 | w0 |] eqn:Hi0.
  - destruct (String.eqb_spec (Direct.Password c0) "") as [Hp0 | Hp0].
    + destruct (StoreGet store (ID a0)) as [[cur|] | gerr] eqn:Hget;
        [| |discriminate].
      * destruct (AccountInstitution cur) as [cc | wc |] eqn:Hic.
        -- intros H Hinst Hpw. inversion H; subst account. simpl in *.
           inversion Hinst; subst connector. simpl in Hpw.
           right. exists cur. split; [assumption|].
           intros cc' Hcc'. congruence.
        -- intros H Hinst Hpw. inversion H; subst account.
           right. exists cur. split; [assumption|].
           intros cc' Hcc'. congruence.
        -- intros H Hinst Hpw. inversion H; subst account.
           right. exists cur. split; [assumption|].
           intros cc' Hcc'. congruence.
      * intros H Hinst Hpw. inversion H; subst account. now left.
    + intros H Hinst Hpw. inversion H; subst account.
      rewrite Hi0 in Hinst. inversion Hinst; subst. contradiction.
  - destruct (String.eqb (WebPassword w0) "").
    + destruct (StoreGet store (ID a0)) as [[cur|] | gerr]; [| |discriminate].
      * destruct (AccountInstitution cur);
          intros H Hinst; inversion H; subst account; simpl in Hinst; congruence.
      * intros H Hinst; inversion H; subst account; congruence.
    + intros H Hinst; inversion H; subst account; congruence.
  - intros H Hinst; inversion H; subst account; congruence.
Qed.

Lemma checkPassword_after_read (body : string + error) (store : Store)
  (account : Account) (verdict : option error) (connector : Direct.directConnect) :
  readAndValidateAccount body store = inl (account, verdict) ->
  AccountInstitution account = DirectInstitution connector ->
  checkPassword store account connector =
  if String.eqb (Direct.Password connector) ""
     && negb (IsLocalhostTestURL (Direct.URL connector))
  then abortWithClientError StatusBadRequest errPasswordRequired
  else Status StatusNoContent.
Proof.
  intros Hread Hinst. unfold checkPassword.
  destruct (String.eqb_spec (Direct.Password connector) "") as [Hp | Hp];
    [|reflexivity].
  cbn [andb].
  destruct (read_blank_password body store account verdict connector
              Hread Hinst Hp) as [Hget | (cur & Hget & Hcur)]; rewrite Hget.
  - destruct (negb (IsLocalhostTestURL (Direct.URL connector))); reflexivity.
  - destruct (negb (IsLocalhostTestURL (Direct.URL connector))); [|reflexivity].
    destruct (AccountInstitution cur) as [cc | wc |] eqn:Hic.
    + rewrite (Hcur cc eq_refl). reflexivity.
    + rewrite Hp. reflexivity.
    + rewrite Hp. reflexivity.
Qed.

(** X9: [verifyAccount] answers 204 exactly when the submitted account is
    read and valid, belongs to a direct connector, can request statements,
    passes the sign-in check, and has a password after the stored one was
    filled in or addresses a localhost test URL.  With the store as it was
    while the account was read, the lookup after the sign-in check cannot
    fail, and a password that is still missing is answered with 400. *)
Theorem verifyAccount_no_content_iff (store : Store) (body : string + error) :
  (status (verifyAccount store body) = StatusNoContent <->
   exists account connector,
     readAndValidateAccount body store = inl (account, None) /\
     AccountInstitution account = DirectInstitution connector /\
     IsRequestor account = true /\
     Verify connector account = None /\
     (Direct.Password connector <> "" \/
      IsLocalhostTestURL (Direct.URL connector) = true)) /\
  (forall account connector,
     readAndValidateAccount body store = inl (account, None) ->
     AccountInstitution account = DirectInstitution connector ->
     IsRequestor account = true ->
     Verify connector account = None ->
     Direct.Password connector = "" ->
     IsLocalhostTestURL (Direct.URL connector) = false ->
     verifyAccount store body =
     abortWithClientError StatusBadRequest errPasswordRequired).
Proof.
  unfold verifyAccount.
  destruct (readAndValidateAccount body store) as [[account [verr|]] | rerr] eqn:Hread.
  - split; [split|]; [discriminate | | ].
    + intros (a & c & Ha & _). discriminate.
    + intros a c Ha. discriminate.
  - destruct (AccountInstitution account) as [connector | w |] eqn:Hinst.
    + pose proof (checkPassword_after_read body store account None connector
                    Hread Hinst) as Hcheck.
      destruct (IsRequestor account) eqn:Hreq; cbn [negb].
      * destruct (Verify connector account) as [err|] eqn:Hver.
        -- split; [split|].
           ++ destruct (isAuthFailed err); discriminate.
           ++ intros (a & c & Ha & Hc & _ & Hv & _).
              inversion Ha; subst a. rewrite Hinst in Hc. inversion Hc; subst c.
              congruence.
           ++ intros a c Ha Hc _ Hv. inversion Ha; subst a.
              rewrite Hinst in Hc. inversion Hc; subst c. congruence.
        -- rewrite Hcheck. split; [split|].
           ++ intros Hs. exists account, connector.
              repeat split; try assumption.
              destruct (String.eqb_spec (Direct.Password connector) "");
                [|now left].
              destruct (IsLocalhostTestURL (Direct.URL connector));
                [now right | discriminate].
           ++ intros (a & c & Ha & Hc & _ & _ & Hpw).
              inversion Ha; subst a. rewrite Hinst in Hc. inversion Hc; subst c.
              destruct Hpw as [Hpw | Hl].
              ** apply String.eqb_neq in Hpw. rewrite Hpw. reflexivity.
              ** rewrite Hl, andb_false_r. reflexivity.
           ++ intros a c Ha Hc _ _ Hpw Hl. inversion Ha; subst a.
              rewrite Hinst in Hc. inversion Hc; subst c.
              rewrite Hpw, Hl. reflexivity.
      * split; [split|].
        -- discriminate.
        -- intros (a & c & Ha & _ & Hr & _). inversion Ha; subst a. congruence.
        -- intros a c Ha _ Hr. inversion Ha; subst a. congruence.
    + split; [split|].
      * discriminate.
      * intros (a & c & Ha & Hc & _). inversion Ha; subst a. congruence.
      * intros a c Ha Hc. inversion Ha; subst a. congruence.
    + split; [split|].
      * discriminate.
      * intros (a & c & Ha & Hc & _). inversion Ha; subst a. congruence.
      * intros a c Ha Hc. inversion Ha; subst a. congruence.
  - split; [split|]; [discriminate | | ].
    + intros (a & c & Ha & _). discriminate.
    + intros a c Ha. discriminate.
Qed.

(** *** A store failure while the password is filled in *)

(** C4 on the code: when the submitted account of a direct connector has
    no password and the lookup of the stored account fails, the error of
    the store comes back from [readAndValidateAccount] and [verifyAccount]
    answers 400 Bad Request with it, although it is neither a validation
    failure nor an authentication failure; the same failed lookup is
    answered with 500 Internal Server Error by the check after the sign-in
    in the same handler and by [getAccount]. *)
Theorem verifyAccount_store_error_bad_request
  (store : Store) (b : string) (account : Account)
  (connector : Direct.directConnect) (err : error) :
  UnmarshalAccount b = inl account ->
  AccountInstitution account = DirectInstitution connector ->
  Direct.Password connector = "" ->
  StoreGet store (ID account) = inr err ->
  readAndValidateAccount (inl b) store = inr err /\
  verifyAccount store (inl b) = abortWithClientError StatusBadRequest err /\
  checkPassword store account connector =
    abortWithClientError StatusInternalServerError err /\
  fst (getAccount store (ID account)) =
    abortWithClientError StatusInternalServerError err.
Proof.
  intros Hu Hi Hp Hg.
  assert (Hread : readAndValidateAccount (inl b) store = inr err).
  { unfold readAndValidateAccount. now rewrite Hu, Hi, Hp, Hg. }
  split; [exact Hread|]. split; [|split].
  - unfold verifyAccount. now rewrite Hread.
  - unfold checkPassword. now rewrite Hp, Hg.
  - unfold getAccount. now rewrite Hg.
Qed.

End Handlers.

Arguments accountStore {Store Ledger File} _.
Arguments ldg {Store Ledger File} _.
Arguments ledgerFile {Store Ledger File} _.

(** The mapping of errors to statuses by error class: whatever error a
    request to
    [verifyAccount] fails with, [ErrAuthFailed] answers 401, an error that
    the validation of an account produced answers 400, and any error that
    is neither answers 500. *)
Definition status_by_error_class : Prop :=
  forall (Store : Type)
         (StoreGet : Store -> string -> option Account + error)
         (UnmarshalAccount : string -> Account + error)
         (ValidateAccount : Account -> option error)
         (Verify : Direct.directConnect -> Account -> option error)
         (IsLocalhostTestURL : string -> bool)
         (store : Store) (body : string + error) (err : error),
    let r := verifyAccount Store StoreGet UnmarshalAccount ValidateAccount
               Verify IsLocalhostTestURL store body in
    failure r = Some err ->
    (err = ErrAuthFailed -> status r = StatusUnauthorized) /\
    ((exists account, ValidateAccount account = Some err) ->
     status r = StatusBadRequest) /\
    (err <> ErrAuthFailed ->
     (forall account, ValidateAccount account <> Some err) ->
     status r = StatusInternalServerError).

End Server.

(** A checking account submitted without its password, as the web client
    sends it when the password field is left untouched. *)
Definition submittedConnector : Direct.directConnect :=
  {| Direct.Institution := {| Direct.InstDescription := "Example Bank";
                              Direct.InstFID := "1234";
                              Direct.InstOrg := "EXB" |};
     Direct.ConnectorURL := "https://ofx.example.com";
     Direct.ConnectorUsername := "alice";
     Direct.ConnectorPassword := "";
     Direct.ConnectorConfig := {| Direct.AppID := "QWIN";
                                  Direct.AppVersion := "2500";
                                  Direct.OFXVersion := "102";
                                  Direct.ClientID := "" |} |}.

Definition submittedAccount : Server.Account :=
  {| Server.ID := "1234";
     Server.Description := "Checking";
     Server.AccountInstitution := Server.DirectInstitution submittedConnector;
     Server.IsRequestor := true |}.

Definition storeUnreadable : error := Errorf "unexpected end of JSON input" [].

(** The stored account cannot be read back while the password is being
    filled in: the handler answers 400 with the store's error. *)
Example verifyAccount_store_failure :
  Server.verifyAccount unit (fun _ _ => inr storeUnreadable)
    (fun _ => inl submittedAccount) (fun _ => None) (fun _ _ => None)
    (fun _ => false) tt (inl "{}")
  = Server.abortWithClientError Server.StatusBadRequest storeUnreadable.
Proof. reflexivity. Qed.

Lemma verifyAccount_store_error_bad_request_witness :
  Server.verifyAccount unit (fun _ _ => inr storeUnreadable)
    (fun _ => inl submittedAccount) (fun _ => None) (fun _ _ => None)
    (fun _ => false) tt (inl "{}")
  = Server.abortWithClientError Server.StatusBadRequest storeUnreadable /\
  fst (Server.getAccount unit (fun _ _ => inr storeUnreadable) tt "1234")
  = Server.abortWithClientError Server.StatusInternalServerError storeUnreadable.
Proof.
  destruct (Server.verifyAccount_store_error_bad_request
              unit (fun _ _ => inr storeUnreadable)
              (fun _ => inl submittedAccount) (fun _ => None) (fun _ _ => None)
              (fun _ => false) tt "{}" submittedAccount submittedConnector
              storeUnreadable eq_refl eq_refl eq_refl eq_refl)
    as (_ & Hverify & _ & Hget).
  split; [exact Hverify | exact Hget].
Defined.

(** The mapping by error class fails on the code: an error of the
    account store, which
    is neither an authentication failure nor a validation failure, is
    answered with 400 and not with 500. *)
Lemma verifyAccount_not_by_error_class : ~ Server.status_by_error_class.
Proof.
  intros H.
  specialize (H unit (fun _ _ => inr storeUnreadable)
                (fun _ => inl submittedAccount) (fun _ => None)
                (fun _ _ => None) (fun _ => false) tt (inl "{}")
                storeUnreadable).
  cbv zeta in H. rewrite verifyAccount_store_failure in H.
  destruct (H eq_refl) as (_ & _ & H500).
  assert (E : Server.status
                (Server.abortWithClientError Server.StatusBadRequest
                   storeUnreadable)
              = Server.StatusInternalServerError).
  { apply H500; [discriminate | intros account; discriminate]. }
  discriminate E.
Qed.

(** ** The ledger model (package ledger) *)
Module Ledger.

Local Open Scope Z_scope.

(** Modelled from the spec: the package [ledger] (postings, transactions,
    the ledger and its mutations [AddTransaction], [UpdateAccountName] and
    [SetOpeningBalance]) is not among the sources.  A posting names a
    ledger account and carries a signed amount and a currency; amounts
    count the smallest currency unit, so a sum that is zero up to less
    than one such unit is zero. *)
Record Posting : Type := {
  Account : string;
  Amount : Z;
  Currency : string
}.

(** Modelled from the spec: a transaction of package [ledger] has a date
    (a day number), a payee, the institution's identifier when the source
    protocol supplied one, a comment, and its postings in order. *)
Record Transaction : Type := {
  Date : Z;
  Payee : string;
  ExternalID : option string;
  Comment : string;
  Postings : list Posting
}.

(** Modelled from the spec: the ledger of package [ledger] is the sequence
    of its transactions in date order, ties in insertion order. *)
Definition Ledger := list Transaction.

Inductive ledgerError : Type :=
| ImbalancedPostingError
| NotFoundError.

Definition total (ps : list Posting) : Z :=
  fold_right (fun p acc => Amount p + acc) 0 ps.

Definition balanced (tx : Transaction) : bool := Z.eqb (total (Postings tx)) 0.

Definition Balanced (tx : Transaction) : Prop := total (Postings tx) = 0.

Definition withPostings (tx : Transaction) (ps : list Posting) : Transaction :=
  {| Date := Date tx;
     Payee := Payee tx;
     ExternalID := ExternalID tx;
     Comment := Comment tx;
     Postings := ps |}.

(** Modelled from the spec: the balancing of package [ledger] for a
    transaction built with one posting; the second posting goes to the
    ledger account of the originating account, with the opposite amount. *)
Definition autoBalance (origin : string) (tx : Transaction) : Transaction :=
  match Postings tx with
  | [p] =>
      withPostings tx
        [p; {| Account := origin; Amount := - Amount p; Currency := Currency p |}]
  | _ => tx
  end.

(** Modelled from the spec: the sorted position at which package [ledger]
    inserts a new transaction, behind every transaction that is not dated
    later. *)
Fixpoint insert (tx : Transaction) (l : Ledger) : Ledger :=
  match l with
  | [] => [tx]
  | t :: rest =>
      if Z.ltb (Date tx) (Date t) then tx :: t :: rest
      else t :: insert tx rest
  end.

(** Modelled from the spec: [AddTransaction] of package [ledger] fails with
    [ImbalancedPostingError] when the amounts do not sum to zero and
    otherwise inserts at the sorted position. *)
Definition AddTransaction (tx : Transaction) (l : Ledger)
  : Ledger * option ledgerError :=
  if balanced tx then (insert tx l, None)
  else (l, Some ImbalancedPostingError).

Definition hasAccount (name : string) (tx : Transaction) : bool :=
  existsb (fun p => String.eqb (Account p) name) (Postings tx).

Definition renamePosting (old new : string) (p : Posting) : Posting :=
  {| Account := if String.eqb (Account p) old then new else Account p;
     Amount := Amount p;
     Currency := Currency p |}.

Definition renameTransaction (old new : string) (tx : Transaction) : Transaction :=
  withPostings tx (map (renamePosting old new) (Postings tx)).

(** Modelled from the spec: [UpdateAccountName] of package [ledger] renames
    a ledger account on all postings and fails with [NotFoundError] when
    [old] has no postings. *)
Definition UpdateAccountName (old new : string) (l : Ledger)
  : Ledger * option ledgerError :=
  if existsb (hasAccount old) l
  then (map (renameTransaction old new) l, None)
  else (l, Some NotFoundError).

(** Modelled from the spec: the running balance that package [ledger]
    derives for an account, over the transactions dated up to [asOf]. *)
Definition accountTotal (name : string) (tx : Transaction) : Z :=
  total (filter (fun p => String.eqb (Account p) name) (Postings tx)).

Definition balanceAt (name : string) (asOf : Z) (l : Ledger) : Z :=
  fold_right
    (fun tx acc => if Z.leb (Date tx) asOf then accountTotal name tx + acc else acc)
    0 l.

Definition openingPayee := "* Opening-Balance".
Definition openingEquity := "equity:Opening Balances".

Definition isOpening (name : string) (tx : Transaction) : bool :=
  String.eqb (Payee tx) openingPayee &&
  match Postings tx with
  | p :: _ => String.eqb (Account p) name
  | [] => false
  end.

(** Modelled from the spec: [SetOpeningBalance] of package [ledger] injects
    the synthetic balancing transaction of the account, replacing the one
    it injected before, so that the running balance at [asOf] is
    [amount]. *)
Definition SetOpeningBalance (name : string) (amount asOf : Z) (l : Ledger)
  : Ledger :=
  let others := filter (fun tx => negb (isOpening name tx)) l in
  let delta := amount - balanceAt name asOf others in
  insert
    {| Date := asOf;
       Payee := openingPayee;
       ExternalID := None;
       Comment := "";
       Postings := [ {| Account := name; Amount := delta; Currency := "" |};
                     {| Account := openingEquity; Amount := - delta;
                        Currency := "" |} ] |}
    others.

(** Modelled from the spec: the single-field edits of a merged transaction
    that the API issues, the category (the account of the second posting)
    and the comment. *)
Definition setCategory (category : string) (tx : Transaction) : Transaction :=
  match Postings tx with
  | p1 :: p2 :: rest =>
      withPostings tx
        (p1 :: {| Account := category; Amount := Amount p2;
                  Currency := Currency p2 |} :: rest)
  | _ => tx
  end.

Definition setComment (comment : string) (tx : Transaction) : Transaction :=
  {| Date := Date tx;
     Payee := Payee tx;
     ExternalID := ExternalID tx;
     Comment := comment;
     Postings := Postings tx |}.

Fixpoint editAt (i : nat) (f : Transaction -> Transaction) (l : Ledger)
  {struct l} : Ledger :=
  match l, i with
  | [], _ => []
  | tx :: rest, O => f tx :: rest
  | tx :: rest, S j => tx :: editAt j f rest
  end.

(** Modelled from the spec: the mutations of the ledger of package
    [ledger], as the orchestrator and the API issue them. *)
Inductive mutation : Type :=
| Add (tx : Transaction)
| AddFrom (origin : string) (tx : Transaction)
| Rename (old new : string)
| Opening (name : string) (amount asOf : Z)
| Recategorize (i : nat) (category : string)
| Annotate (i : nat) (comment : string).

Definition apply (m : mutation) (l : Ledger) : Ledger * option ledgerError :=
  match m with
  | Add tx => AddTransaction tx l
  | AddFrom origin tx => AddTransaction (autoBalance origin tx) l
  | Rename old new => UpdateAccountName old new l
  | Opening name amount asOf => (SetOpeningBalance name amount asOf l, None)
  | Recategorize i category => (editAt i (setCategory category) l, None)
  | Annotate i comment => (editAt i (setComment comment) l, None)
  end.

(** The ledger after a sequence of mutations; a failed one leaves it as it
    was. *)
Fixpoint run (ms : list mutation) (l : Ledger) : Ledger :=
  match ms with
  | [] => l
  | m :: rest => run rest (fst (apply m l))
  end.

(** *** The balance invariant *)

Lemma balanced_iff tx : balanced tx = true <-> Balanced tx.
Proof. unfold balanced, Balanced. apply Z.eqb_eq. Qed.

Lemma insert_In tx t l : In t (insert tx l) <-> t = tx \/ In t l.
Proof.
  induction l as [|x l IH]; simpl.
  - intuition congruence.
  - destruct (Z.ltb (Date tx) (Date x)); simpl.
    + intuition congruence.
    + rewrite IH. intuition congruence.
Qed.

Lemma insert_Forall (P : Transaction -> Prop) tx l :
  P tx -> Forall P l -> Forall P (insert tx l).
Proof.
  intros Htx Hl. apply Forall_forall. intros t Ht.
  apply insert_In in Ht. destruct Ht as [-> | Ht]; [assumption|].
  now apply (proj1 (Forall_forall P l) Hl).
Qed.

Lemma total_rename old new ps :
  total (map (renamePosting old new) ps) = total ps.
Proof. induction ps as [|p ps IH]; simpl; [reflexivity | now rewrite IH]. Qed.

Lemma rename_Balanced old new tx :
  Balanced tx -> Balanced (renameTransaction old new tx).
Proof. unfold Balanced. simpl. now rewrite total_rename. Qed.

Lemma autoBalance_single origin tx p :
  Postings tx = [p] -> Balanced (autoBalance origin tx).
Proof.
  intros H. unfold autoBalance, Balanced. rewrite H. simpl. lia.
Qed.

Lemma setCategory_Balanced category tx :
  Balanced tx -> Balanced (setCategory category tx).
Proof.
  unfold setCategory, Balanced. intros H.
  destruct (Postings tx) as [|p1 [|p2 rest]] eqn:E; simpl; rewrite ?E; auto.
Qed.

Lemma setComment_Balanced comment tx :
  Balanced tx -> Balanced (setComment comment tx).
Proof. unfold Balanced. simpl. auto. Qed.

Lemma editAt_Forall (P : Transaction -> Prop) f i l :
  (forall tx, P tx -> P (f tx)) -> Forall P l -> Forall P (editAt i f l).
Proof.
  intros Hf. revert i. induction l as [|tx l IH]; intros i Hl; simpl.
  - constructor.
  - inversion Hl; subst. destruct i; constructor; auto.
Qed.

Lemma filter_Forall (P : Transaction -> Prop) f (l : Ledger) :
  Forall P l -> Forall P (filter f l).
Proof.
  intros Hl. apply Forall_forall. intros t Ht. apply filter_In in Ht.
  now apply (proj1 (Forall_forall P l) Hl).
Qed.

Lemma SetOpeningBalance_Forall name amount asOf l :
  Forall Balanced l -> Forall Balanced (SetOpeningBalance name amount asOf l).
Proof.
  intros Hl. unfold SetOpeningBalance. apply insert_Forall.
  - unfold Balanced. simpl. lia.
  - now apply filter_Forall.
Qed.

Lemma apply_Forall m l :
  Forall Balanced l -> Forall Balanced (fst (apply m l)).
Proof.
  intros Hl. destruct m as [tx | origin tx | old new | name amount asOf | i c | i c];
    simpl.
  - unfold AddTransaction. destruct (balanced tx) eqn:E; simpl; [|assumption].
    apply insert_Forall; [now apply balanced_iff | assumption].
  - unfold AddTransaction.
    destruct (balanced (autoBalance origin tx)) eqn:E; simpl; [|assumption].
    apply insert_Forall; [now apply balanced_iff | assumption].
  - unfold UpdateAccountName. destruct (existsb (hasAccount old) l); simpl;
      [|assumption].
    apply Forall_forall. intros t Ht. apply in_map_iff in Ht.
    destruct Ht as (t0 & <- & Ht0). apply rename_Balanced.
    now apply (proj1 (Forall_forall Balanced l) Hl).
  - now apply SetOpeningBalance_Forall.
  - apply editAt_Forall; [apply setCategory_Balanced | assumption].
  - apply editAt_Forall; [apply setComment_Balanced | assumption].
Qed.

Lemma run_Forall ms : forall l, Forall Balanced l -> Forall Balanced (run ms l).
Proof.
  induction ms as [|m ms IH]; intros l Hl; simpl; [assumption|].
  apply IH. now apply apply_Forall.
Qed.

(** C1: a transaction built with one posting is balanced by the posting
    against the ledger account of its originating account, and is then
    accepted by [AddTransaction]; every mutation of a ledger whose
    transactions all sum to zero gives such a ledger again; so after any
    sequence of mutations of the empty ledger the amounts of every
    transaction in it sum to exactly zero. *)
Theorem ledger_balance_invariant :
  (forall origin tx p l,
      Postings tx = [p] ->
      Postings (autoBalance origin tx) =
        [p; {| Account := origin; Amount := - Amount p; Currency := Currency p |}] /\
      total (Postings (autoBalance origin tx)) = 0 /\
      AddTransaction (autoBalance origin tx) l =
        (insert (autoBalance origin tx) l, None)) /\
  (forall tx l, total (Postings tx) <> 0 ->
                AddTransaction tx l = (l, Some ImbalancedPostingError)) /\
  (forall m l, Forall Balanced l -> Forall Balanced (fst (apply m l))) /\
  (forall ms tx, In tx (run ms []) -> total (Postings tx) = 0).
Proof.
  repeat split.
  - unfold autoBalance. rewrite H. reflexivity.
  - now apply (autoBalance_single origin tx p).
  - unfold AddTransaction.
    replace (balanced (autoBalance origin tx)) with true; [reflexivity|].
    symmetry. apply balanced_iff. now apply (autoBalance_single origin tx p).
  - intros tx l Hne. unfold AddTransaction, balanced.
    apply Z.eqb_neq in Hne. now rewrite Hne.
  - intros m l. apply apply_Forall.
  - intros ms tx Hin.
    assert (H : Forall Balanced (run ms [])) by (apply run_Forall; constructor).
    now apply (proj1 (Forall_forall Balanced (run ms [])) H).
Qed.

(** *** Renaming an account *)

(** [p'] is [p] with the account [old] renamed to [new]. *)
Definition renamedPosting (old new : string) (p p' : Posting) : Prop :=
  Account p' = (if String.eqb (Account p) old then new else Account p) /\
  Amount p' = Amount p /\
  Currency p' = Currency p.

Definition renamedTransaction (old new : string) (tx tx' : Transaction) : Prop :=
  Date tx' = Date tx /\
  Payee tx' = Payee tx /\
  ExternalID tx' = ExternalID tx /\
  Comment tx' = Comment tx /\
  Forall2 (renamedPosting old new) (Postings tx) (Postings tx').

Definition appearsIn (name : string) (l : Ledger) : Prop :=
  exists tx p, In tx l /\ In p (Postings tx) /\ Account p = name.

Lemma existsb_hasAccount name l :
  existsb (hasAccount name) l = true <-> appearsIn name l.
Proof.
  unfold appearsIn, hasAccount. rewrite existsb_exists. split.
  - intros (tx & Htx & H). apply existsb_exists in H.
    destruct H as (p & Hp & E). apply String.eqb_eq in E.
    exists tx, p. auto.
  - intros (tx & p & Htx & Hp & E). exists tx. split; [assumption|].
    apply existsb_exists. exists p. split; [assumption|].
    now apply String.eqb_eq.
Qed.

Lemma renamePosting_Forall2 old new ps :
  Forall2 (renamedPosting old new) ps (map (renamePosting old new) ps).
Proof.
  induction ps as [|p ps IH]; simpl; constructor; [|assumption].
  unfold renamedPosting. simpl. auto.
Qed.

Lemma renameTransaction_Forall2 old new (l : Ledger) :
  Forall2 (renamedTransaction old new) l (map (renameTransaction old new) l).
Proof.
  induction l as [|tx l IH]; simpl; constructor; [|assumption].
  unfold renamedTransaction. simpl. repeat split.
  apply renamePosting_Forall2.
Qed.

Lemma renamed_no_old old new ps :
  old <> new ->
  forall p, In p (map (renamePosting old new) ps) -> Account p <> old.
Proof.
  intros Hne p Hp. apply in_map_iff in Hp. destruct Hp as (q & <- & _).
  simpl. destruct (String.eqb_spec (Account q) old); congruence.
Qed.

Lemma renamePosting_other old new p :
  Account p <> old -> renamePosting old new p = p.
Proof.
  intros H. unfold renamePosting. apply String.eqb_neq in H. rewrite H.
  now destruct p.
Qed.

Lemma rename_absent old new (l : Ledger) :
  ~ appearsIn old l -> map (renameTransaction old new) l = l.
Proof.
  intros Hno. rewrite <- (map_id l) at 2. apply map_ext_in.
  intros tx Htx. unfold renameTransaction, withPostings.
  replace (map (renamePosting old new) (Postings tx)) with (Postings tx).
  - now destruct tx.
  - rewrite <- (map_id (Postings tx)) at 1. apply map_ext_in.
    intros p Hp. symmetry. apply renamePosting_other.
    intros Hacc. apply Hno. exists tx, p. auto.
Qed.

(** C7: [UpdateAccountName old new] fails exactly when [old] is on no
    posting, the failure is [NotFoundError] and the ledger is returned as
    it was (renaming would not have changed it either); otherwise it returns no error and the ledger in which, posting
    by posting and in the same order, [old] is replaced by [new] and
    nothing else changes, so that, when the names differ, [old] is on no
    posting afterwards. *)
Theorem UpdateAccountName_renames_or_not_found (old new : string) (l : Ledger) :
  (~ appearsIn old l <->
   snd (UpdateAccountName old new l) = Some NotFoundError) /\
  (~ appearsIn old l ->
   fst (UpdateAccountName old new l) = l /\
   map (renameTransaction old new) l = l) /\
  (appearsIn old l ->
   snd (UpdateAccountName old new l) = None /\
   Forall2 (renamedTransaction old new) l (fst (UpdateAccountName old new l)) /\
   (old <> new -> ~ appearsIn old (fst (UpdateAccountName old new l)))).
Proof.
  unfold UpdateAccountName.
  destruct (existsb (hasAccount old) l) eqn:E.
  - apply existsb_hasAccount in E. simpl.
    split; [|split].
    + split; [intros Hno; contradiction | discriminate].
    + intros Hno. contradiction.
    + intros _. split; [reflexivity|]. split.
      * apply renameTransaction_Forall2.
      * intros Hne (tx & p & Htx & Hp & Hacc).
        apply in_map_iff in Htx. destruct Htx as (tx0 & <- & _).
        simpl in Hp. now apply (renamed_no_old old new (Postings tx0) Hne p).
  - assert (Hno : ~ appearsIn old l).
    { intros Happ. apply existsb_hasAccount in Happ. congruence. }
    simpl. split; [|split].
    + split; [reflexivity | intros _; exact Hno].
    + intros _. split; [reflexivity | now apply rename_absent].
    + intros Happ. contradiction.
Qed.

End Ledger.

(** ** The categorization rules (package rules) *)
Module Rules.

Import Ledger.

(** ASCII case folding and substring search for the rule patterns. *)
Definition lowerAscii (c : ascii) : ascii :=
  let n := nat_of_ascii c in
  if Nat.leb 65 n && Nat.leb n 90 then ascii_of_nat (n + 32) else c.

Fixpoint lower (s : string) : string :=
  match s with
  | EmptyString => EmptyString
  | String c rest => String (lowerAscii c) (lower rest)
  end.

Fixpoint contains (needle hay : string) : bool :=
  String.prefix needle hay ||
  match hay with
  | EmptyString => false
  | String _ rest => contains needle rest
  end.

(** Modelled from the spec: a rule of package [rules] is a match predicate
    on the payee or description together with the account and the comment
    it assigns on a match, either of which may be left as it is. *)
Record Rule : Type := {
  Matches : string -> bool;
  Account2 : option string;
  RuleComment : option string
}.

(** The two kinds of predicate the spec names: a case-insensitive
    substring, and a pattern, of which the one matching any text is
    written here. *)
Definition substring (needle : string) : string -> bool :=
  fun description => contains (lower needle) (lower description).

Definition anyText : string -> bool := fun _ => true.

Definition unassigned := "expenses:uncategorized".

(** The category of a transaction: the account of its second posting. *)
Definition category (tx : Transaction) : string :=
  match Postings tx with
  | _ :: p2 :: _ => Account p2
  | _ => unassigned
  end.

Definition assign (r : Rule) (tx : Transaction) : string * string :=
  (match Account2 r with Some a => a | None => category tx end,
   match RuleComment r with Some c => c | None => Comment tx end).

(** Modelled from the spec: [Categorize] of package [rules] goes through
    the rules in declared order; the first whose predicate matches gives
    the account and the comment, and without a match the transaction keeps
    what it has. *)
Fixpoint Categorize (rules : list Rule) (tx : Transaction) : string * string :=
  match rules with
  | [] => (category tx, Comment tx)
  | r :: rest =>
      if Matches r (Payee tx) then assign r tx else Categorize rest tx
  end.

Definition describedAs (payee : string) : Transaction :=
  {| Date := 0%Z;
     Payee := payee;
     ExternalID := None;
     Comment := "";
     Postings := [ {| Account := "assets:Bank:Checking"; Amount := (-1250)%Z;
                      Currency := "USD" |};
                   {| Account := unassigned; Amount := 1250%Z;
                      Currency := "USD" |} ] |}.

Definition groceryRule : Rule :=
  {| Matches := substring "grocery"; Account2 := Some "Food"; RuleComment := None |}.

Definition catchAllRule : Rule :=
  {| Matches := anyText; Account2 := Some "Other"; RuleComment := None |}.

Lemma Categorize_skip before rest tx :
  (forall q, In q before -> Matches q (Payee tx) = false) ->
  Categorize (before ++ rest) tx = Categorize rest tx.
Proof.
  induction before as [|q before IH]; intros H; simpl; [reflexivity|].
  rewrite (H q (or_introl eq_refl)). apply IH.
  intros q' Hq'. apply H. now right.
Qed.

(** C6: [Categorize] is a function of the rule list and the transaction
    that takes the rules in their order: the first rule whose predicate
    matches decides the result whatever follows it, and when no rule
    matches the result is the category and comment the transaction already
    has; the order matters, as the rules for "grocery" and for any text
    give Food in one order and Other in the other on "Grocery Store". *)
Theorem Categorize_first_match_wins :
  (forall before r after tx,
      (forall q, In q before -> Matches q (Payee tx) = false) ->
      Matches r (Payee tx) = true ->
      Categorize (before ++ r :: after) tx = assign r tx) /\
  (forall rules tx,
      (forall q, In q rules -> Matches q (Payee tx) = false) ->
      Categorize rules tx = (category tx, Comment tx)) /\
  Categorize [groceryRule; catchAllRule] (describedAs "Grocery Store")
    = ("Food", "") /\
  Categorize [catchAllRule; groceryRule] (describedAs "Grocery Store")
    = ("Other", "") /\
  Categorize [groceryRule] (describedAs "Hardware Store")
    = (unassigned, "").
Proof.
  split; [|split; [|repeat split]].
  - intros before r after tx Hbefore Hr.
    rewrite Categorize_skip by assumption. simpl. now rewrite Hr.
  - intros rules tx H.
    rewrite <- (app_nil_r rules). now rewrite Categorize_skip.
Qed.

End Rules.

(** ** Reconciliation (package sync) *)
Module Sync.

Import Ledger.

Local Open Scope Z_scope.

(** Modelled from the spec: a raw transaction as the connector of package
    [sync] hands it over; the date or the amount may be missing, and the
    institution's identifier is present when the protocol supplied one. *)
Record RawTransaction : Type := {
  RawDate : option Z;
  RawAmount : option Z;
  RawPayee : string;
  RawID : option string;
  RawCurrency : string
}.

(** Modelled from the spec: the canonical form that step 1 of [Reconcile]
    (package [sync]) derives from a raw transaction. *)
Record Canonical : Type := {
  CDate : Z;
  CPayee : string;
  CAmount : Z;
  CID : option string;
  CCurrency : string
}.

(** Modelled from the spec: step 1 of [Reconcile] (package [sync]); a raw
    transaction without a date or an amount is malformed. *)
Definition canonical (raw : RawTransaction) : option Canonical :=
  match RawDate raw, RawAmount raw with
  | Some d, Some a =>
      Some {| CDate := d; CPayee := RawPayee raw; CAmount := a;
              CID := RawID raw; CCurrency := RawCurrency raw |}
  | _, _ => None
  end.

Definition carriesID (id : string) (tx : Transaction) : bool :=
  match ExternalID tx with
  | Some i => String.eqb i id
  | None => false
  end.

(** Modelled from the spec: step 2 of [Reconcile] (package [sync]); with
    an identifier, a duplicate is a ledger transaction that carries it and
    has a posting to the account; without one, a ledger transaction with
    the same date and payee and a posting to the account with the same
    signed amount. *)
Definition duplicate (l : Ledger) (account : string) (c : Canonical) : bool :=
  match CID c with
  | Some id => existsb (fun tx => carriesID id tx && hasAccount account tx) l
  | None =>
      existsb
        (fun tx =>
           Z.eqb (Date tx) (CDate c) &&
           String.eqb (Payee tx) (CPayee c) &&
           existsb (fun p => String.eqb (Account p) account &&
                             Z.eqb (Amount p) (CAmount c))
             (Postings tx))
        l
  end.

(** Modelled from the spec: step 3 of [Reconcile] (package [sync]);
    posting 1 is the account with the signed amount, posting 2 and the
    comment come from the rules and balance it. *)
Definition uncategorized (account : string) (c : Canonical) : Transaction :=
  {| Date := CDate c;
     Payee := CPayee c;
     ExternalID := CID c;
     Comment := "";
     Postings := [ {| Account := account; Amount := CAmount c;
                      Currency := CCurrency c |};
                   {| Account := Rules.unassigned; Amount := - CAmount c;
                      Currency := CCurrency c |} ] |}.

Definition build (rules : list Rules.Rule) (account : string) (c : Canonical)
  : Transaction :=
  let tx := uncategorized account c in
  let '(category, comment) := Rules.Categorize rules tx in
  setComment comment (setCategory category tx).

(** Modelled from the spec: step 4 of [Reconcile] (package [sync]);
    chronological order, with the batch order kept among equal dates. *)
Definition chronological (txs : list Transaction) : list Transaction :=
  fold_left (fun sorted tx => insert tx sorted) txs [].

(** Modelled from the spec: [Reconcile] of package [sync] returns the new
    transactions in chronological order and the malformed raw
    transactions, which it reports and skips; the ledger passed in is only
    read. *)
Definition Reconcile (l : Ledger) (rules : list Rules.Rule) (account : string)
  (raws : list RawTransaction) : list Transaction * list RawTransaction :=
  let fresh :=
    flat_map
      (fun raw =>
         match canonical raw with
         | Some c => if duplicate l account c then [] else [build rules account c]
         | None => []
         end)
      raws in
  let malformed :=
    filter (fun raw => match canonical raw with Some _ => false | None => true end)
      raws in
  (chronological fresh, malformed).

(** Modelled from the spec: the commit of the new transactions into the
    ledger, which the caller of [Reconcile] (package [sync]) performs with
    [AddTransaction]. *)
Definition commit (l : Ledger) (txs : list Transaction) : Ledger :=
  fold_left (fun l tx => fst (AddTransaction tx l)) txs l.

Lemma build_shape rules account c :
  exists category comment,
    build rules account c =
    {| Date := CDate c;
       Payee := CPayee c;
       ExternalID := CID c;
       Comment := comment;
       Postings := [ {| Account := account; Amount := CAmount c;
                        Currency := CCurrency c |};
                     {| Account := category; Amount := - CAmount c;
                        Currency := CCurrency c |} ] |}.
Proof.
  unfold build.
  destruct (Rules.Categorize rules (uncategorized account c)) as [category comment].
  exists category, comment. reflexivity.
Qed.

Lemma build_Balanced rules account c : Balanced (build rules account c).
Proof.
  destruct (build_shape rules account c) as (category & comment & ->).
  unfold Balanced. simpl. lia.
Qed.

Lemma build_duplicate rules account c l :
  In (build rules account c) l -> duplicate l account c = true.
Proof.
  destruct (build_shape rules account c) as (category & comment & ->).
  intros Hin. unfold duplicate.
  destruct (CID c) as [id|] eqn:Hid; apply existsb_exists; eexists;
    (split; [exact Hin|]).
  - unfold carriesID, hasAccount. simpl.
    now rewrite !String.eqb_refl.
  - simpl. now rewrite !Z.eqb_refl, !String.eqb_refl.
Qed.

Lemma existsb_incl (A : Type) (f : A -> bool) (l l' : list A) :
  (forall x, In x l -> In x l') -> existsb f l = true -> existsb f l' = true.
Proof.
  intros Hincl H. apply existsb_exists in H. destruct H as (x & Hx & Hf).
  apply existsb_exists. exists x. auto.
Qed.

Lemma duplicate_incl l l' account c :
  (forall tx, In tx l -> In tx l') ->
  duplicate l account c = true -> duplicate l' account c = true.
Proof.
  intros Hincl. unfold duplicate. destruct (CID c); now apply existsb_incl.
Qed.

Lemma fold_insert_In txs : forall acc tx,
  In tx (fold_left (fun sorted t => insert t sorted) txs acc) <->
  In tx txs \/ In tx acc.
Proof.
  induction txs as [|t txs IH]; intros acc tx; simpl.
  - tauto.
  - rewrite IH, insert_In. intuition congruence.
Qed.

Lemma chronological_In txs tx : In tx (chronological txs) <-> In tx txs.
Proof. unfold chronological. rewrite fold_insert_In. simpl. tauto. Qed.

Lemma commit_In txs : forall l tx,
  Forall Balanced txs -> In tx l \/ In tx txs -> In tx (commit l txs).
Proof.
  unfold commit.
  induction txs as [|t txs IH]; intros l tx Hbal Hin; simpl.
  - destruct Hin as [Hin | []]. assumption.
  - inversion Hbal as [|? ? Ht Hrest]; subst.
    apply IH; [assumption|].
    unfold AddTransaction. apply balanced_iff in Ht. rewrite Ht. simpl.
    destruct Hin as [Hin | [-> | Hin]].
    + left. apply insert_In. now right.
    + left. apply insert_In. now left.
    + now right.
Qed.

Lemma flat_map_nil (A B : Type) (f : A -> list B) (l : list A) :
  (forall x, In x l -> f x = []) -> flat_map f l = [].
Proof.
  induction l as [|x l IH]; intros H; simpl; [reflexivity|].
  rewrite (H x (or_introl eq_refl)). apply IH.
  intros y Hy. apply H. now right.
Qed.

Lemma Reconcile_new_Balanced l rules account raws :
  Forall Balanced (fst (Reconcile l rules account raws)).
Proof.
  apply Forall_forall. intros tx Htx. simpl in Htx.
  apply chronological_In, in_flat_map in Htx.
  destruct Htx as (raw & _ & Htx).
  destruct (canonical raw) as [c|]; [|destruct Htx].
  destruct (duplicate l account c); [destruct Htx|].
  destruct Htx as [<- | []]. apply build_Balanced.
Qed.

(** C5: once the new transactions of a run of [Reconcile] are committed to
    the ledger it started from, a second run with the same batch returns
    no new transaction: every well-formed raw transaction of the batch is
    a duplicate, by its identifier when it has one and by date, amount and
    payee otherwise. *)
Theorem Reconcile_twice_no_new (l : Ledger) (rules : list Rules.Rule)
  (account : string) (raws : list RawTransaction) :
  let l' := commit l (fst (Reconcile l rules account raws)) in
  fst (Reconcile l' rules account raws) = [] /\
  (forall raw c, In raw raws -> canonical raw = Some c ->
                 duplicate l' account c = true).
Proof.
  intros l'.
  assert (Hdup : forall raw c, In raw raws -> canonical raw = Some c ->
                               duplicate l' account c = true).
  { intros raw c Hraw Hc.
    destruct (duplicate l account c) eqn:Hold.
    - apply (duplicate_incl l l'); [|assumption].
      intros tx Htx. apply commit_In; [apply Reconcile_new_Balanced | now left].
    - apply (build_duplicate rules). apply commit_In;
        [apply Reconcile_new_Balanced|].
      right. simpl. apply chronological_In, in_flat_map.
      exists raw. split; [assumption|]. rewrite Hc, Hold. now left. }
  split; [|exact Hdup].
  simpl. rewrite flat_map_nil; [reflexivity|].
  intros raw Hraw. destruct (canonical raw) as [c|] eqn:Hc; [|reflexivity].
  now rewrite (Hdup raw c Hraw Hc).
Qed.

End Sync.

(** ** Worked scenarios *)
Module Scenario.

Import Ledger.

Definition checking := "assets:Example Bank:Checking".

Definition coffee : Transaction :=
  {| Date := 19724%Z;
     Payee := "Coffee Shop";
     ExternalID := Some "FIT-1";
     Comment := "";
     Postings := [ {| Account := "expenses:Food"; Amount := 450%Z;
                      Currency := "USD" |} ] |}.

(** A one-posting transaction is committed with its balancing posting. *)
Example add_from_checking :
  apply (AddFrom checking coffee) [] =
  ([ {| Date := 19724%Z;
        Payee := "Coffee Shop";
        ExternalID := Some "FIT-1";
        Comment := "";
        Postings := [ {| Account := "expenses:Food"; Amount := 450%Z;
                         Currency := "USD" |};
                      {| Account := checking; Amount := (-450)%Z;
                         Currency := "USD" |} ] |} ], None).
Proof. reflexivity. Qed.

(** Without the balancing posting the transaction is refused. *)
Example add_unbalanced_refused :
  apply (Add coffee) [] = ([], Some ImbalancedPostingError).
Proof. reflexivity. Qed.

Example rename_unknown_account :
  UpdateAccountName "assets:Other" checking (run [AddFrom checking coffee] [])
  = (run [AddFrom checking coffee] [], Some NotFoundError).
Proof. reflexivity. Qed.

(** A batch of a purchase with an identifier, a deposit without one and a
    raw transaction without a date. *)
Definition batch : list Sync.RawTransaction :=
  [ {| Sync.RawDate := Some 19725%Z; Sync.RawAmount := Some (-1250)%Z;
       Sync.RawPayee := "Grocery Store"; Sync.RawID := Some "FIT-2";
       Sync.RawCurrency := "USD" |};
    {| Sync.RawDate := Some 19723%Z; Sync.RawAmount := Some 100000%Z;
       Sync.RawPayee := "Payroll"; Sync.RawID := None;
       Sync.RawCurrency := "USD" |};
    {| Sync.RawDate := None; Sync.RawAmount := Some 5%Z;
       Sync.RawPayee := "Interest"; Sync.RawID := None;
       Sync.RawCurrency := "USD" |} ].

Definition rules : list Rules.Rule := [Rules.groceryRule; Rules.catchAllRule].

Example reconcile_first_run :
  map (fun tx => (Date tx, Payee tx, Rules.category tx))
    (fst (Sync.Reconcile [] rules checking batch))
  = [ (19723%Z, "Payroll", "Other"); (19725%Z, "Grocery Store", "Food") ] /\
  List.length (snd (Sync.Reconcile [] rules checking batch)) = 1%nat.
Proof. split; reflexivity. Qed.

Example reconcile_second_run :
  fst (Sync.Reconcile
         (Sync.commit [] (fst (Sync.Reconcile [] rules checking batch)))
         rules checking batch) = [].
Proof. reflexivity. Qed.

(** The account store as a list of accounts, the ledger of the model, and
    a ledger file that holds the ledger last written. *)
Definition storeGet (store : list Server.Account) (id : string)
  : option Server.Account + error :=
  inl (find (fun a => String.eqb (Server.ID a) id) store).

Definition storeUpdate (store : list Server.Account) (id : string)
  (account : Server.Account) : list Server.Account * option error :=
  (map (fun a => if String.eqb (Server.ID a) id then account else a) store, None).

Definition decode (description : string) : Server.Account + error :=
  inl {| Server.ID := "1234";
         Server.Description := description;
         Server.AccountInstitution := Server.DirectInstitution exampleConnector;
         Server.IsRequestor := true |}.

Definition ledgerAccountName (a : Server.Account) : string :=
  String.append "assets:Example Bank:" (Server.Description a).

Definition updateAccountName (l : Ledger) (old new : string)
  : Ledger * option error :=
  match UpdateAccountName old new l with
  | (l', Some _) => (l', Some (Errorf "Account not found" []))
  | (l', None) => (l', None)
  end.

Definition writeLedger (l : Ledger) (_ : Ledger) : Ledger * option error :=
  (l, None).

Definition updateAccount :=
  Server.updateAccount (list Server.Account) storeGet storeUpdate decode
    (fun _ => None) ledgerAccountName Ledger updateAccountName Ledger writeLedger.

Definition start : Server.world (list Server.Account) Ledger Ledger :=
  {| Server.accountStore :=
       [ {| Server.ID := "1234";
            Server.Description := "Checking";
            Server.AccountInstitution := Server.DirectInstitution submittedConnector;
            Server.IsRequestor := true |} ];
     Server.ldg := run [AddFrom checking coffee] [];
     Server.ledgerFile := [] |}.

(** Same description: only the store entry changes. *)
Example update_same_name :
  let '(w, log, r) := updateAccount start (inl "Checking") in
  Server.ldg w = Server.ldg start /\
  Server.ledgerFile w = Server.ledgerFile start /\
  log = [Server.StoreUpdated "1234"] /\
  Server.status r = 200%Z.
Proof. repeat split. Qed.

(** New description: the ledger account is renamed and the file written. *)
Example update_new_name :
  let '(w, log, r) := updateAccount start (inl "Joint") in
  log = [ Server.StoreUpdated "1234";
          Server.LedgerRenamed checking "assets:Example Bank:Joint";
          Server.LedgerFileWritten ] /\
  Server.ledgerFile w = Server.ldg w /\
  hasAccount checking
    {| Date := 0%Z; Payee := ""; ExternalID := None; Comment := "";
       Postings := flat_map Postings (Server.ldg w) |} = false /\
  Server.status r = 200%Z.
Proof. repeat split. Qed.

(** A reading of URLs good enough for the connectors below: the scheme is
    what precedes the first colon of the two schemes in use, and only the
    local test server has a recognised host. *)
Definition schemeOf (u : string) : string :=
  if String.prefix "https://" u then "https"
  else if String.prefix "http://" u then "http"
  else "".

Definition hostOf (u : string) : string :=
  if String.prefix "http://localhost" u then "localhost" else "".

Definition validate :=
  Direct.ValidateConnector (fun _ => None) string (fun u => inl u) schemeOf hostOf
    (fun u => String.prefix "http://localhost" u) (fun _ => None).

Example validate_accepts : validate (Some exampleConnector) = None.
Proof. reflexivity. Qed.

(** An empty URL is reported twice, once as empty and once as not HTTPS,
    next to the empty password. *)
Example validate_lists_all :
  validate (Some (Direct.SetPassword
                    {| Direct.Institution := Direct.Institution exampleConnector;
                       Direct.ConnectorURL := "";
                       Direct.ConnectorUsername := "alice";
                       Direct.ConnectorPassword := "";
                       Direct.ConnectorConfig :=
                         Direct.ConnectorConfig exampleConnector |} ""))
  = Some (ErrList [ Errorf Direct.msgURLEmpty [];
                    Errorf Direct.msgHTTPS [];
                    Errorf Direct.msgPassword [] ]).
Proof. reflexivity. Qed.

Example validate_nil :
  validate None = Some (ErrList [Errorf Direct.msgNil []]).
Proof. reflexivity. Qed.

End Scenario.

(** ** Package directconnect: bank accounts (bank.go) *)
Module BankAccount.

Import DirectConnect.

(** [directAccount], as [newBankAccount] fills it. *)
Record directAccount : Type := {
  AccountID : string;
  AccountDescription : string;
  DirectConnect : Direct.Connector
}.

Record bankAccount : Type := {
  Base : directAccount;
  AccountType : gostring;
  RoutingNumber : string
}.

(** [func newBankAccount(kind, id, bankID, description, connector) Account] *)
Definition newBankAccount (kind : accountType) (id bankID description : string)
  (connector : Direct.Connector) : bankAccount :=
  {| AccountType := String_ kind;
     RoutingNumber := bankID;
     Base := {| AccountID := id;
                AccountDescription := description;
                DirectConnect := connector |} |}.

Definition NewCheckingAccount (id bankID description : string)
  (institution : Direct.Connector) : bankAccount :=
  newBankAccount CheckingType id bankID description institution.

Definition NewSavingsAccount (id bankID description : string)
  (institution : Direct.Connector) : bankAccount :=
  newBankAccount SavingsType id bankID description institution.

Definition BankID (b : bankAccount) : string := RoutingNumber b.

Definition isBank (b : bankAccount) : bool := negb (String.eqb (RoutingNumber b) "").

(** [sErrors.Errors.ErrIf] with arguments for its format. *)
Definition ErrIfArgs (errs : sErrors.Errors) (cond : bool) (format : string)
  (args : list fmtArg) : sErrors.Errors * bool :=
  if cond then (errs ++ [Errorf format args], true) else (errs, false).

Lemma ErrIf_no_args errs cond format :
  sErrors.ErrIf errs cond format = ErrIfArgs errs cond format [].
Proof. reflexivity. Qed.

Definition msgRouting := "Routing number must not be empty".
Definition msgAccountType := "Account type must be %s or %s".

Section Validate.

(** [unicode.ToUpper] above ASCII and the validation of the embedded
    [directAccount] are defined elsewhere. *)
Variable unicodeUpper : rune -> rune.
Variable directValidate : directAccount -> option error.

(** [func (b *bankAccount) Validate() error] *)
Definition Validate (b : bankAccount) : option error :=
  let errs : sErrors.Errors := [] in
  let errs := sErrors.AddErr errs (directValidate (Base b)) in
  let '(errs, _) := sErrors.ErrIf errs (String.eqb (RoutingNumber b) "") msgRouting in
  let kind := ParseAccountType unicodeUpper (AccountType b) in
  let '(errs, _) :=
    ErrIfArgs errs
      (negb (Z.eqb kind CheckingType) && negb (Z.eqb kind SavingsType))
      msgAccountType [FInt CheckingType; FInt SavingsType] in
  sErrors.ErrOrNil errs.

(** The account type names a checking or a savings account, in any case
    of the letters. *)
Definition supportedType (b : bankAccount) : Prop :=
  ToUpper unicodeUpper (AccountType b) = String_ CheckingType \/
  ToUpper unicodeUpper (AccountType b) = String_ SavingsType.

Lemma ParseAccountType_supported (s : gostring) :
  negb (Z.eqb (ParseAccountType unicodeUpper s) CheckingType)
  && negb (Z.eqb (ParseAccountType unicodeUpper s) SavingsType) = false <->
  (ToUpper unicodeUpper s = String_ CheckingType \/
   ToUpper unicodeUpper s = String_ SavingsType).
Proof.
  unfold ParseAccountType. cbv zeta.
  destruct (gostring_eqb (ToUpper unicodeUpper s) (String_ CheckingType)) eqn:E1.
  - apply gostring_eqb_eq in E1. split; [now left | reflexivity].
  - destruct (gostring_eqb (ToUpper unicodeUpper s) (String_ SavingsType)) eqn:E2.
    + apply gostring_eqb_eq in E2. split; [now right | reflexivity].
    + split; [discriminate|].
      intros [H | H]; apply gostring_eqb_eq in H; congruence.
Qed.

Lemma Validate_None_iff (b : bankAccount) :
  Validate b = None <->
  directValidate (Base b) = None /\ RoutingNumber b <> "" /\ supportedType b.
Proof.
  unfold Validate, supportedType, sErrors.ErrIf, ErrIfArgs. cbv zeta.
  pose proof (ParseAccountType_supported (AccountType b)) as Hty.
  destruct (directValidate (Base b)) as [e|];
    destruct (String.eqb_spec (RoutingNumber b) "") as [Hr | Hr];
    destruct (negb (Z.eqb (ParseAccountType unicodeUpper (AccountType b)) CheckingType)
              && negb (Z.eqb (ParseAccountType unicodeUpper (AccountType b)) SavingsType));
    simpl; split;
    try discriminate;
    try (intros (H1 & H2 & H3); try discriminate; try contradiction;
         apply Hty in H3; discriminate);
    try (intros _; repeat split; try assumption; now apply Hty).
Qed.


Lemma ToUpper_type_name (a : accountType) :
  ToUpper unicodeUpper (String_ a) = String_ a.
Proof.
  unfold String_.
  destruct (Z.eqb a CheckingType); [now apply ToUpper_ascii_upper|].
  destruct (Z.eqb a SavingsType); now apply ToUpper_ascii_upper.
Qed.

Lemma ParseAccountType_type_name (a : accountType) :
  a = CheckingType \/ a = SavingsType ->
  ParseAccountType unicodeUpper (String_ a) = a.
Proof.
  intros Ha. unfold ParseAccountType. rewrite ToUpper_type_name.
  destruct Ha as [-> | ->]; reflexivity.
Qed.

(** X11: an account made by [NewCheckingAccount] or [NewSavingsAccount]
    always has a supported type, so [Validate] accepts it exactly when the
    embedded account is valid and the bank ID given is not empty; the bank
    ID is read back by [BankID], and [isBank] tells whether it is set. *)
Theorem new_bank_account_validates (id bankID description : string)
  (institution : Direct.Connector) (b : bankAccount) :
  b = NewCheckingAccount id bankID description institution \/
  b = NewSavingsAccount id bankID description institution ->
  (Validate b = None <-> directValidate (Base b) = None /\ bankID <> "") /\
  BankID b = bankID /\
  (isBank b = true <-> bankID <> "") /\
  (ParseAccountType unicodeUpper (AccountType b) = CheckingType \/
   ParseAccountType unicodeUpper (AccountType b) = SavingsType).
Proof.
  intros Hb.
  assert (Hty : supportedType b /\ RoutingNumber b = bankID /\
                (ParseAccountType unicodeUpper (AccountType b) = CheckingType \/
                 ParseAccountType unicodeUpper (AccountType b) = SavingsType)).
  { destruct Hb as [-> | ->];
      unfold supportedType, NewCheckingAccount, NewSavingsAccount, newBankAccount;
      cbn [AccountType RoutingNumber]; rewrite ToUpper_type_name;
      rewrite ParseAccountType_type_name by auto; auto. }
  destruct Hty as (Hs & Hr & Hp).
  split; [|split; [|split]].
  - rewrite Validate_None_iff, Hr. tauto.
  - exact Hr.
  - unfold isBank. rewrite Hr, negb_true_iff. apply String.eqb_neq.
  - exact Hp.
Qed.

End Validate.

(** *** Statement requests *)

Section Statement.

(** Transaction UIDs, OFX account types, times and credit card statement
    requests belong to ofxgo; [NewAcctType] reads an account type name and
    [IDOf] is the [ID] method of the embedded account. *)
Variable UID : Type.
Variable AcctTypeEnum : Type.
Variable Time : Type.
Variable CCStatementRequest : Type.
Variable NewAcctType : gostring -> AcctTypeEnum + error.
Variable IDOf : directAccount -> string.
Variable RandomUID : unit -> UID + error.

(** [ofxgo.BankAcct] and [ofxgo.StatementRequest], as the source fills
    them. *)
Record BankAcct : Type := {
  BankAcctBankID : string;
  BankAcctAcctID : string;
  BankAcctAcctType : AcctTypeEnum
}.

Record StatementRequest : Type := {
  TrnUID : UID;
  BankAcctFrom : BankAcct;
  DtStart : Time;
  DtEnd : Time;
  Include : bool
}.

(** The messages of a request: bank statement requests go to [Bank],
    credit card statement requests to [CreditCard]. *)
Definition Message : Type := (StatementRequest + CCStatementRequest)%type.

Definition bankStatement (b : bankAccount) (uid : UID) (kind : AcctTypeEnum)
  (start end_ : Time) : StatementRequest :=
  {| TrnUID := uid;
     BankAcctFrom := {| BankAcctBankID := RoutingNumber b;
                        BankAcctAcctID := IDOf (Base b);
                        BankAcctAcctType := kind |};
     DtStart := start;
     DtEnd := end_;
     Include := true |}.

(** [func generateBankStatement(b, req, start, end, accountType, getUID) error];
    the request is changed in place. *)
Definition generateBankStatement (b : bankAccount) (req : Direct.Request Message)
  (start end_ : Time) (accountType : gostring) (getUID : unit -> UID + error)
  : Direct.Request Message * option error :=
  match getUID tt with
  | inr err => (req, Some err)
  | inl uid =>
      match NewAcctType accountType with
      | inr err => (req, Some err)
      | inl accountTypeEnum =>
          ({| Direct.RequestURL := Direct.RequestURL req;
              Direct.Signon := Direct.Signon req;
              Direct.Bank :=
                Direct.Bank req ++ [inl (bankStatement b uid accountTypeEnum start end_)];
              Direct.CreditCard := Direct.CreditCard req |}, None)
      end
  end.

(** [func (b *bankAccount) Statement(req, start, end) error] *)
Definition Statement (b : bankAccount) : Direct.Requestor Message Time :=
  fun req start end_ =>
    generateBankStatement b req start end_ (AccountType b) RandomUID.

(** X12: [generateBankStatement] either fails, with the error of the UID
    source or of the account type, and leaves the request as it was, or
    adds exactly one statement request at the end of the bank messages
    and changes nothing else of the request; that statement request has
    the UID drawn, the routing number of the account as bank ID, the ID
    of the account, the account type read, the window given, and asks for
    the transactions to be included. *)
Theorem generateBankStatement_appends_one (b : bankAccount)
  (req : Direct.Request Message) (start end_ : Time) (accountType : gostring)
  (getUID : unit -> UID + error) :
  let '(req', err) := generateBankStatement b req start end_ accountType getUID in
  (forall e, err = Some e ->
     req' = req /\
     (getUID tt = inr e \/
      (exists uid, getUID tt = inl uid) /\ NewAcctType accountType = inr e)) /\
  (err = None ->
   exists uid kind statement,
     getUID tt = inl uid /\ NewAcctType accountType = inl kind /\
     Direct.Bank req' = Direct.Bank req ++ [inl statement] /\
     TrnUID statement = uid /\
     BankAcctBankID (BankAcctFrom statement) = RoutingNumber b /\
     BankAcctAcctID (BankAcctFrom statement) = IDOf (Base b) /\
     BankAcctAcctType (BankAcctFrom statement) = kind /\
     DtStart statement = start /\
     DtEnd statement = end_ /\
     Include statement = true /\
     Direct.CreditCard req' = Direct.CreditCard req /\
     Direct.RequestURL req' = Direct.RequestURL req /\
     Direct.Signon req' = Direct.Signon req).
Proof.
  unfold generateBankStatement.
  destruct (getUID tt) as [uid | e1].
  - destruct (NewAcctType accountType) as [kind | e2].
    + split; [discriminate|]. intros _.
      exists uid, kind, (bankStatement b uid kind start end_). repeat split.
    + split; [|discriminate]. intros e He. inversion He; subst.
      split; [reflexivity|]. right. split; [now exists uid | reflexivity].
  - split; [|discriminate]. intros e He. inversion He; subst.
    split; [reflexivity|]. now left.
Qed.

Section Fetch.

Variable ResponseBody : Type.
Variable Transaction : Type.
Variable Parsed : Type.
Variable CodeMeaning : Direct.Status -> string + error.
Variable showRequest : Direct.Request Message -> string.

(** The request that reaches the institution for one bank account, field
    by field. *)
Definition sentForBank (b : bankAccount) (connector : Direct.directConnect)
  (uid : UID) (kind : AcctTypeEnum) (start end_ : Time) : Direct.Request Message :=
  {| Direct.RequestURL := Direct.ConnectorURL connector;
     Direct.Signon :=
       Some {| Direct.ClientUID := Direct.ClientID (Direct.ConnectorConfig connector);
               Direct.SignonOrg := Direct.InstOrg (Direct.Institution connector);
               Direct.SignonFid := Direct.InstFID (Direct.Institution connector);
               Direct.UserID := Direct.ConnectorUsername connector;
               Direct.UserPass := Direct.ConnectorPassword connector |};
     Direct.Bank :=
       [inl {| TrnUID := uid;
               BankAcctFrom := {| BankAcctBankID := RoutingNumber b;
                                  BankAcctAcctID := IDOf (Base b);
                                  BankAcctAcctType := kind |};
               DtStart := start;
               DtEnd := end_;
               Include := true |}];
     Direct.CreditCard := [] |}.

(** X13: a fetch for one bank account whose UID and account type are
    produced hands the transport exactly one request: addressed to the
    connector's URL, signed with its credentials, and holding the one
    statement request of the account and nothing else.  The answer of the
    transport to that request decides the fetch: its error is returned as
    it is, and its response is judged by the signon status code and then
    parsed; the refusal of a query without statement requests does not
    come into play.  When the UID or the account type fails, that error
    is the result whatever the transport would do. *)
Theorem bank_statement_fetch (b : bankAccount) (connector : Direct.directConnect)
  (start end_ : Time)
  (doRequest : Direct.Request Message -> Direct.Response ResponseBody + error)
  (parse : Direct.TransactionParser ResponseBody Transaction Parsed) :
  let result :=
    Direct.fetchTransactions Message ResponseBody Time Transaction Parsed
      CodeMeaning showRequest connector start end_ [Statement b] doRequest parse in
  (forall uid kind,
      RandomUID tt = inl uid ->
      NewAcctType (AccountType b) = inl kind ->
      result =
      match doRequest (sentForBank b connector uid kind start end_) with
      | inr err => ([], Some err)
      | inl response =>
          let status := Direct.SignonStatus response in
          if Z.eqb (Direct.Code status) 0 then
            (snd (fst (parse response)), snd (parse response))
          else if Z.eqb (Direct.Code status) 15500 then ([], Some ErrAuthFailed)
          else
            match CodeMeaning status with
            | inr err => ([], Some (Wrap err Direct.msgCodeMeaning))
            | inl meaning =>
                ([], Some (Errorf Direct.msgNonzeroSignon
                             [FInt (Direct.Code status); FStr meaning;
                              FStr (Direct.Message status)]))
            end
      end) /\
  (forall e, RandomUID tt = inr e -> result = ([], Some e)) /\
  (forall uid e,
      RandomUID tt = inl uid ->
      NewAcctType (AccountType b) = inr e ->
      result = ([], Some e)).
Proof.
  cbv zeta. unfold Direct.fetchTransactions. cbn [Direct.annotate].
  unfold Statement, generateBankStatement.
  split; [|split].
  - intros uid kind Hu Hk. rewrite Hu, Hk. cbn -[Z.eqb].
    change (Direct.addSignonRequest Message connector
              {| Direct.RequestURL := "";
                 Direct.Signon := None;
                 Direct.Bank := [inl (bankStatement b uid kind start end_)];
                 Direct.CreditCard := [] |})
      with (sentForBank b connector uid kind start end_).
    destruct (doRequest (sentForBank b connector uid kind start end_))
      as [response | err]; [|reflexivity].
    destruct (Z.eqb (Direct.Code (Direct.SignonStatus response)) 0);
      cbn [negb].
    + now destruct (parse response) as [[p txns] e].
    + reflexivity.
  - intros e Hu. now rewrite Hu.
  - intros uid e Hu Hk. now rewrite Hu, Hk.
Qed.

End Fetch.

End Statement.

End BankAccount.

(** ** Package direct: account discovery (connector.go) *)
Module Discovery.

Import DirectConnect.

(** [ofxgo.AcctInfo], as [parseAcctInfo] reads it; [AcctType] holds what
    [AcctType.String()] returns. *)
Record BankAcctFrom : Type := {
  BankID : string;
  AcctID : string;
  AcctType : gostring
}.

Record BankAcctInfo : Type := {
  BankFrom : BankAcctFrom;
  SupTxDl : bool
}.

Record CCAcctInfo : Type := {
  CCAcctID : string;
  CCSupTxDl : bool
}.

Record AcctInfo : Type := {
  Desc : string;
  Name : string;
  BankInfo : option BankAcctInfo;
  CCInfo : option CCAcctInfo
}.

(** The messages of a signup response. *)
Inductive signupMessage : Type :=
| AcctInfoResponse (infos : list AcctInfo)
| OtherSignupMessage.

Definition warnNoBankDownload := "Bank account does not support downloading transactions".
Definition warnBankType := "Bank account is of unsupported type".
Definition warnNoCardDownload :=
  "Credit card account does not support downloading transactions".
Definition warnUnknown := "Account was not a bank or credit card account".

Definition errNoMessages := Errorf "Response did not contain any messages" [].
Definition errUnknownResponse := Errorf "Unknown account info response type: %T" [].

Section Accounts.

(** [unicode.ToUpper] above ASCII, credit card accounts and their
    constructor, and the UID source are defined elsewhere. *)
Variable unicodeUpper : rune -> rune.
Variable CreditCard : Type.
Variable NewCreditCard : string -> string -> Direct.Connector -> CreditCard.
Variable UID : Type.
Variable RandomUID : unit -> UID + error.
Variable StatementMessage : Type.

(** The accounts [parseAcctInfo] makes. *)
Inductive Account : Type :=
| BankAccount (b : BankAccount.bankAccount)
| CardAccount (c : CreditCard).

(** [func parseAcctInfo(connector, acctInfo, logger) (model.Account, bool)];
    a refusal carries the warning that is logged for it. *)
Definition parseAcctInfo (connector : Direct.Connector) (acctInfo : AcctInfo)
  : Account + string :=
  let accountName := Desc acctInfo in
  let accountName :=
    if String.eqb accountName "" then Name acctInfo else accountName in
  match BankInfo acctInfo, CCInfo acctInfo with
  | Some bank, _ =>
      let bankID := BankID (BankFrom bank) in
      let accountID := AcctID (BankFrom bank) in
      let accountTypeStr := AcctType (BankFrom bank) in
      let accountType := ParseAccountType unicodeUpper accountTypeStr in
      if negb (SupTxDl bank) then inr warnNoBankDownload
      else
        let accountName :=
          if String.eqb accountName "" then accountID else accountName in
        if Z.eqb accountType CheckingType then
          inl (BankAccount
                 (BankAccount.NewCheckingAccount accountID bankID accountName connector))
        else if Z.eqb accountType SavingsType then
          inl (BankAccount
                 (BankAccount.NewSavingsAccount accountID bankID accountName connector))
        else inr warnBankType
  | None, Some card =>
      let accountID := CCAcctID card in
      if negb (CCSupTxDl card) then inr warnNoCardDownload
      else
        let accountName :=
          if String.eqb accountName "" then accountID else accountName in
        inl (CardAccount (NewCreditCard accountID accountName connector))
  | None, None => inr warnUnknown
  end.

(** [ofxgo.AcctInfoRequest] and the request of [accounts]: the signon part
    is the request [addSignonRequest] fills, [Signup] its signup
    messages. *)
Record AcctInfoRequest : Type := {
  TrnUID : UID
}.

Record SignupRequest : Type := {
  Base : Direct.Request StatementMessage;
  Signup : list AcctInfoRequest
}.

(** The loop of [accounts] over the account infos: the accounts found, in
    order, and the warnings logged. *)
Fixpoint collect (connector : Direct.directConnect) (infos : list AcctInfo)
  : list Account * list string :=
  match infos with
  | [] => ([], [])
  | acctInfo :: rest =>
      let '(accounts, warnings) := collect connector rest in
      match parseAcctInfo (Some connector) acctInfo with
      | inl account => (account :: accounts, warnings)
      | inr warning => (accounts, warning :: warnings)
      end
  end.

(** [func accounts(connector, logger, doRequest) ([]model.Account, error)];
    the body of a response holds its signup messages. *)
Definition accounts (connector : Direct.directConnect)
  (doRequest : SignupRequest -> Direct.Response (list signupMessage) + error)
  : (list Account * list string) + error :=
  match RandomUID tt with
  | inr err => inr err
  | inl uid =>
      let query :=
        {| Base := Direct.addSignonRequest StatementMessage connector
                     (Direct.zeroRequest StatementMessage);
           Signup := [ {| TrnUID := uid |} ] |} in
      match doRequest query with
      | inr err => inr err
      | inl resp =>
          match Direct.Body resp with
          | [] => inr errNoMessages
          | AcctInfoResponse infos :: _ => inl (collect connector infos)
          | OtherSignupMessage :: _ => inr errUnknownResponse
          end
      end
  end.

(** The first of the strings that is not empty. *)
Fixpoint firstNonEmpty (names : list string) : string :=
  match names with
  | [] => ""
  | name :: rest => if String.eqb name "" then firstNonEmpty rest else name
  end.

(** The account type names a checking or a savings account. *)
Definition supported (accountTypeStr : gostring) : Prop :=
  ToUpper unicodeUpper accountTypeStr = String_ CheckingType \/
  ToUpper unicodeUpper accountTypeStr = String_ SavingsType.

Lemma ParseAccountType_cases (s : gostring) :
  (ParseAccountType unicodeUpper s = CheckingType /\
   ToUpper unicodeUpper s = String_ CheckingType) \/
  (ParseAccountType unicodeUpper s = SavingsType /\
   ToUpper unicodeUpper s = String_ SavingsType) \/
  (ParseAccountType unicodeUpper s = 0%Z /\ ~ supported s).
Proof.
  unfold ParseAccountType, supported. cbv zeta.
  destruct (gostring_eqb (ToUpper unicodeUpper s) (String_ CheckingType)) eqn:E1.
  - left. apply gostring_eqb_eq in E1. auto.
  - destruct (gostring_eqb (ToUpper unicodeUpper s) (String_ SavingsType)) eqn:E2.
    + right. left. apply gostring_eqb_eq in E2. auto.
    + right. right. split; [reflexivity|].
      intros [H | H]; apply gostring_eqb_eq in H; congruence.
Qed.

(** X14: [parseAcctInfo] returns an account in two cases only: the info
    describes a bank account that supports the download of transactions
    and whose type reads CHECKING or SAVINGS, or it describes no bank
    account but a credit card that supports the download.  A bank
    description is looked at first, so a refused bank description hides
    the credit card of the same info. *)
Theorem parseAcctInfo_accepts_iff (connector : Direct.Connector)
  (acctInfo : AcctInfo) :
  (exists account, parseAcctInfo connector acctInfo = inl account) <->
  (exists bank, BankInfo acctInfo = Some bank /\ SupTxDl bank = true /\
                supported (AcctType (BankFrom bank))) \/
  (BankInfo acctInfo = None /\
   exists card, CCInfo acctInfo = Some card /\ CCSupTxDl card = true).
Proof.
  unfold parseAcctInfo. cbv zeta.
  destruct (BankInfo acctInfo) as [bank|].
  - destruct (SupTxDl bank) eqn:Hsup; cbn [negb].
    + destruct (ParseAccountType_cases (AcctType (BankFrom bank)))
        as [[Hp Hu] | [[Hp Hu] | [Hp Hu]]]; rewrite Hp; simpl.
      * split; [|eauto]. intros _. left. exists bank. unfold supported. auto.
      * split; [|eauto]. intros _. left. exists bank. unfold supported. auto.
      * split.
        -- intros [a Ha]. discriminate.
        -- intros [(bank' & Hb & _ & Hs) | [Hb _]]; [|discriminate].
           inversion Hb; subst. contradiction.
    + split.
      * intros [a Ha]. discriminate.
      * intros [(bank' & Hb & Hs & _) | [Hb _]]; [|discriminate].
        inversion Hb; subst. congruence.
  - destruct (CCInfo acctInfo) as [card|].
    + destruct (CCSupTxDl card) eqn:Hsup; cbn [negb].
      * split; [|eauto]. intros _. right. split; [reflexivity|]. eauto.
      * split.
        -- intros [a Ha]. discriminate.
        -- intros [(bank' & Hb & _) | [_ (card' & Hc & Hs)]]; [discriminate|].
           inversion Hc; subst. congruence.
    + split.
      * intros [a Ha]. discriminate.
      * intros [(bank' & Hb & _) | [_ (card' & Hc & _)]]; discriminate.
Qed.

(** X15: a bank account that [parseAcctInfo] returns carries the account
    ID and the bank ID of the info and the connector given, is named by
    the description of the info, else by its name, else by the account
    ID, and its type is written CHECKING or SAVINGS whatever the case of
    the letters in the info. *)
Theorem parseAcctInfo_bank_account (connector : Direct.Connector)
  (acctInfo : AcctInfo) (b : BankAccount.bankAccount) :
  parseAcctInfo connector acctInfo = inl (BankAccount b) ->
  exists bank,
    BankInfo acctInfo = Some bank /\
    BankAccount.AccountID (BankAccount.Base b) = AcctID (BankFrom bank) /\
    BankAccount.RoutingNumber b = BankID (BankFrom bank) /\
    BankAccount.DirectConnect (BankAccount.Base b) = connector /\
    BankAccount.AccountDescription (BankAccount.Base b) =
      firstNonEmpty [Desc acctInfo; Name acctInfo; AcctID (BankFrom bank)] /\
    BankAccount.AccountType b = ToUpper unicodeUpper (AcctType (BankFrom bank)).
Proof.
  unfold parseAcctInfo. cbv zeta.
  destruct (BankInfo acctInfo) as [bank|].
  - destruct (SupTxDl bank); cbn [negb]; [|discriminate].
    assert (Hname :
      (if String.eqb (if String.eqb (Desc acctInfo) "" then Name acctInfo
                      else Desc acctInfo) ""
       then AcctID (BankFrom bank)
       else if String.eqb (Desc acctInfo) "" then Name acctInfo
            else Desc acctInfo)
      = firstNonEmpty [Desc acctInfo; Name acctInfo; AcctID (BankFrom bank)]).
    { simpl. destruct (String.eqb (Desc acctInfo) "") eqn:Hd.
      - destruct (String.eqb (Name acctInfo) "") eqn:Hn.
        + destruct (String.eqb_spec (AcctID (BankFrom bank)) ""); congruence.
        + reflexivity.
      - now rewrite Hd. }
    destruct (ParseAccountType_cases (AcctType (BankFrom bank)))
      as [[Hp Hu] | [[Hp Hu] | [Hp Hu]]]; rewrite Hp; simpl;
      try discriminate;
      intros H; inversion H; subst; exists bank;
      unfold BankAccount.NewCheckingAccount, BankAccount.NewSavingsAccount,
        BankAccount.newBankAccount; cbn -[firstNonEmpty String_];
      rewrite Hu; repeat split; exact Hname.
  - destruct (CCInfo acctInfo) as [card|]; [|discriminate].
    destruct (CCSupTxDl card); cbn [negb]; discriminate.
Qed.

Lemma collect_length connector infos :
  List.length (fst (collect connector infos))
  + List.length (snd (collect connector infos)) = List.length infos.
Proof.
  induction infos as [|info infos IH]; simpl; [reflexivity|].
  destruct (collect connector infos) as [accts warns].
  destruct (parseAcctInfo (Some connector) info); simpl in *; lia.
Qed.

Lemma collect_In connector infos account :
  In account (fst (collect connector infos)) <->
  exists info, In info infos /\ parseAcctInfo (Some connector) info = inl account.
Proof.
  induction infos as [|info infos IH]; simpl.
  - split; [intros [] | intros (i & [] & _)].
  - destruct (collect connector infos) as [accts warns].
    destruct (parseAcctInfo (Some connector) info) as [a | w] eqn:Hp; simpl in *.
    + rewrite IH. split.
      * intros [<- | (i & Hi & Ha)]; [exists info | exists i]; auto.
      * intros (i & [<- | Hi] & Ha); [left; congruence | right; eauto].
    + rewrite IH. split.
      * intros (i & Hi & Ha). exists i. auto.
      * intros (i & [<- | Hi] & Ha); [congruence | eauto].
Qed.

(** X16: when [accounts] succeeds, the response began with an account info
    message, and each of its infos is either among the accounts returned
    or among the warnings logged; the accounts returned are exactly those
    that [parseAcctInfo] makes of these infos. *)
Theorem accounts_accounts_for_every_info (connector : Direct.directConnect)
  (doRequest : SignupRequest -> Direct.Response (list signupMessage) + error)
  (found : list Account) (warnings : list string) :
  accounts connector doRequest = inl (found, warnings) ->
  exists uid resp infos rest,
    RandomUID tt = inl uid /\
    doRequest {| Base := Direct.addSignonRequest StatementMessage connector
                           (Direct.zeroRequest StatementMessage);
                 Signup := [ {| TrnUID := uid |} ] |} = inl resp /\
    Direct.Body resp = AcctInfoResponse infos :: rest /\
    List.length found + List.length warnings = List.length infos /\
    (forall account,
        In account found <->
        exists info, In info infos /\
                     parseAcctInfo (Some connector) info = inl account).
Proof.
  unfold accounts. destruct (RandomUID tt) as [uid | e]; [|discriminate].
  cbv zeta.
  destruct (doRequest _) as [resp | e] eqn:Hd; [|discriminate].
  destruct (Direct.Body resp) as [|[infos|] rest] eqn:Hb; try discriminate.
  intros H. inversion H as [Hc]. exists uid, resp, infos, rest.
  repeat split; try assumption.
  - pose proof (collect_length connector infos) as L. now rewrite Hc in L.
  - intros Hin. apply collect_In. now rewrite Hc.
  - intros Hex. apply collect_In in Hex. now rewrite Hc in Hex.
Qed.

(** X17: [accounts] does not look at the signon status of the response:
    rewriting the status of every response changes nothing, so a refused
    signon is only noticed through the messages that are missing. *)
Theorem accounts_ignores_signon_status (connector : Direct.directConnect)
  (doRequest : SignupRequest -> Direct.Response (list signupMessage) + error)
  (rewrite_status : Direct.Status -> Direct.Status) :
  accounts connector
    (fun query =>
       match doRequest query with
       | inl resp =>
           inl {| Direct.SignonStatus := rewrite_status (Direct.SignonStatus resp);
                  Direct.Body := Direct.Body resp |}
       | inr err => inr err
       end)
  = accounts connector doRequest.
Proof.
  unfold accounts. destruct (RandomUID tt) as [uid | e]; [|reflexivity].
  cbv zeta. destruct (doRequest _) as [resp | e]; reflexivity.
Qed.



End Accounts.

End Discovery.

(** ** The verify handler over the direct connector *)
Module SignIn.

Section WithConnector.

(** The collaborators of [verifyAccount] and of [direct.Verify];
    [requestorOf] is the submitted account seen as a [direct.Requestor],
    [ParseOFX] the parser of package [client], and [now] the time at which
    [Verify] runs. *)
Variable Store : Type.
Variable StoreGet : Store -> string -> option Server.Account + error.
Variable UnmarshalAccount : string -> Server.Account + error.
Variable ValidateAccount : Server.Account -> option error.
Variable IsLocalhostTestURL : string -> bool.
Variable StatementMessage : Type.
Variable ResponseBody : Type.
Variable Time : Type.
Variable Transaction : Type.
Variable Parsed : Type.
Variable CodeMeaning : Direct.Status -> string + error.
Variable showRequest : Direct.Request StatementMessage -> string.
Variable newSimpleClient :
  string -> Direct.Config ->
  (Direct.Request StatementMessage -> Direct.Response ResponseBody + error) + error.
Variable timeAdd : Time -> Z -> Time.
Variable requestorOf : Server.Account -> Direct.Requestor StatementMessage Time.
Variable ParseOFX : Direct.TransactionParser ResponseBody Transaction Parsed.
Variable now : Time.

(** [direct.Verify(connector, requestor, client.ParseOFX)] as the handler
    calls it. *)
Definition verify (connector : Direct.directConnect) (account : Server.Account)
  : option error :=
  Direct.Verify StatementMessage ResponseBody Time Transaction Parsed
    CodeMeaning showRequest newSimpleClient timeAdd
    connector (requestorOf account) ParseOFX now.

Definition verifyAccount (store : Store) (body : string + error) : Server.response :=
  Server.verifyAccount Store StoreGet UnmarshalAccount ValidateAccount verify
    IsLocalhostTestURL store body.

(** X24: when the submitted account is read and valid, belongs to a direct
    connector and can request statements, and the institution answers the
    request for the last day, the handler answers 401 with [ErrAuthFailed]
    if the signon status code is 15500 and 500 on any other code that is
    not zero. *)
Theorem verifyAccount_signon_rejected
  (store : Store) (body : string + error) (account : Server.Account)
  (connector : Direct.directConnect)
  (client : Direct.Request StatementMessage -> Direct.Response ResponseBody + error)
  (query : Direct.Request StatementMessage)
  (response : Direct.Response ResponseBody) :
  Server.readAndValidateAccount Store StoreGet UnmarshalAccount ValidateAccount
    body store = inl (account, None) ->
  Server.AccountInstitution account = Server.DirectInstitution connector ->
  Server.IsRequestor account = true ->
  newSimpleClient (Direct.URL connector) (Direct.Config_ connector) = inl client ->
  requestorOf account (Direct.zeroRequest StatementMessage)
    (timeAdd now (-24 * Direct.Hour)) now = (query, None) ->
  Direct.Bank query <> [] \/ Direct.CreditCard query <> [] ->
  client (Direct.addSignonRequest StatementMessage connector query) = inl response ->
  (Direct.Code (Direct.SignonStatus response) = 15500%Z ->
   verifyAccount store body =
   Server.abortWithClientError Server.StatusUnauthorized ErrAuthFailed) /\
  (Direct.Code (Direct.SignonStatus response) <> 0%Z ->
   Direct.Code (Direct.SignonStatus response) <> 15500%Z ->
   Server.status (verifyAccount store body) = Server.StatusInternalServerError).
Proof.
  intros Hread Hinst Hreq Hclient Hq Hne Hresp.
  assert (Hv := Direct.Verify_answered StatementMessage ResponseBody Time
                  Transaction Parsed CodeMeaning showRequest newSimpleClient
                  timeAdd connector (requestorOf account) ParseOFX now
                  client query response Hclient Hq Hne Hresp).
  fold (verify connector account) in Hv. cbv zeta in Hv.
  unfold verifyAccount, Server.verifyAccount.
  rewrite Hread, Hinst, Hreq. cbn [negb]. rewrite Hv. split.
  - intros Hc. rewrite Hc. reflexivity.
  - intros H0 H1. apply Z.eqb_neq in H0. apply Z.eqb_neq in H1.
    unfold Direct.ofxAuthFailed. rewrite H0, H1.
    destruct (CodeMeaning (Direct.SignonStatus response)); reflexivity.
Qed.

End WithConnector.

End SignIn.

(** ** The handler that lists the accounts of a connector *)
Module ConnectorAccounts.

Section Handler.

(** The collaborators of [ValidateConnector] and of the discovery;
    [jsonUnmarshal] is [json.Unmarshal] into a [directConnect], which is
    returned whether or not the decoding failed. *)
Variable ValidateInstitution : Direct.directConnect -> option error.
Variable ParsedURL : Type.
Variable url_Parse : string -> ParsedURL + error.
Variable Scheme : ParsedURL -> string.
Variable Hostname : ParsedURL -> string.
Variable IsLocalhostTestURL : string -> bool.
Variable NewOfxVersion : string -> option error.
Variable jsonUnmarshal : string -> Direct.directConnect * option error.
Variable unicodeUpper : DirectConnect.rune -> DirectConnect.rune.
Variable CreditCard : Type.
Variable NewCreditCard : string -> string -> Direct.Connector -> CreditCard.
Variable UID : Type.
Variable RandomUID : unit -> UID + error.
Variable StatementMessage : Type.
Variable newSimpleClient :
  string -> Direct.Config ->
  (Discovery.SignupRequest UID StatementMessage ->
   Direct.Response (list Discovery.signupMessage) + error) + error.





Definition found := Discovery.Account CreditCard.






End Handler.

End ConnectorAccounts.

(** ** The web client: the list of accounts (Accounts.js, Account.js) *)
Module WebClient.

Section AccountList.

(** The account objects of the client; the list functions read their
    [ID]. *)
Variable account : Type.
Variable ID : account -> string.

(** [accountCreated]: [[account].concat(accounts)] *)
Definition accountCreated (a : account) (accounts : list account) : list account :=
  a :: accounts.

(** [accountUpdated]: a copy of the array in which every entry with the
    original ID is replaced. *)
Definition accountUpdated (originalAccountID : string) (a : account)
  (accounts : list account) : list account :=
  map (fun entry => if String.eqb (ID entry) originalAccountID then a else entry)
    accounts.

(** The state that [deleteAccount] sets once the server has deleted the
    account: [accounts.filter(a => a.ID !== accountID)]. *)
Definition accountDeleted (accountID : string) (accounts : list account)
  : list account :=
  filter (fun entry => negb (String.eqb (ID entry) accountID)) accounts.

(** [deleteAccount]: the user may decline the confirmation and the request
    may fail; in both cases the state stays. *)
Definition deleteAccount (accountID : string) (confirmed deleted : bool)
  (accounts : list account) : list account :=
  if negb confirmed then accounts
  else if deleted then accountDeleted accountID accounts
  else accounts.

(** X26: [accountUpdated] keeps the number of accounts, leaves every
    account with another ID where it is and puts the edited account in
    the place of every account with the original ID; when the edit keeps
    the ID, the IDs of the list are the same, in the same order. *)
Theorem accountUpdated_keeps_ids (originalAccountID : string) (a : account)
  (accounts : list account) :
  List.length (accountUpdated originalAccountID a accounts) = List.length accounts /\
  (forall i entry, nth_error accounts i = Some entry ->
     nth_error (accountUpdated originalAccountID a accounts) i =
     Some (if String.eqb (ID entry) originalAccountID then a else entry)) /\
  (ID a = originalAccountID ->
   map ID (accountUpdated originalAccountID a accounts) = map ID accounts).
Proof.
  unfold accountUpdated. split; [apply length_map|]. split.
  - intros i entry H. rewrite nth_error_map, H. reflexivity.
  - intros Ha. rewrite map_map. apply map_ext. intros entry.
    destruct (String.eqb_spec (ID entry) originalAccountID); congruence.
Qed.

(** X27: after a confirmed and successful [deleteAccount] no account with
    that ID is left and the accounts with other IDs are all there, in
    their order; a declined or failed deletion leaves the list alone; and
    deleting an account right after it was created gives the list that
    deleting its ID from the old list gives. *)
Theorem deleteAccount_removes_id (accountID : string) (confirmed deleted : bool)
  (accounts : list account) :
  (confirmed = true -> deleted = true ->
   forall entry,
     In entry (deleteAccount accountID confirmed deleted accounts) <->
     In entry accounts /\ ID entry <> accountID) /\
  (confirmed = false \/ deleted = false ->
   deleteAccount accountID confirmed deleted accounts = accounts) /\
  (forall a, ID a = accountID ->
     deleteAccount accountID true true (accountCreated a accounts) =
     deleteAccount accountID true true accounts) /\
  (deleteAccount accountID confirmed deleted accounts = accounts \/
   List.length (deleteAccount accountID confirmed deleted accounts)
   < List.length accounts).
Proof.
  unfold deleteAccount, accountDeleted, accountCreated.
  split; [|split; [|split]].
  - intros -> -> entry. simpl. rewrite filter_In, negb_true_iff.
    split; intros [H1 H2]; split; try assumption; now apply String.eqb_neq.
  - intros [-> | ->]; [reflexivity|]. now destruct confirmed.
  - intros a Ha. simpl. rewrite Ha, String.eqb_refl. reflexivity.
  - destruct confirmed, deleted; simpl; auto.
    induction accounts as [|x l IH]; simpl; [now left|].
    destruct (negb (String.eqb (ID x) accountID)); simpl.
    + destruct IH as [IH | IH]; [left; now rewrite IH | right; lia].
    + right. pose proof (filter_length_le
                           (fun entry => negb (String.eqb (ID entry) accountID)) l).
      lia.
Qed.

End AccountList.

(** [formIDFactory]: the element ID of a form field of an account. *)
Definition formIDFactory (accountID : string) : string -> string :=
  fun name =>
    String.append "account-" (String.append accountID (String.append "-" name)).

Lemma append_cancel_l (prefix a b : string) :
  String.append prefix a = String.append prefix b -> a = b.
Proof.
  induction prefix as [|c prefix IH]; simpl; intros H; [assumption|].
  inversion H. auto.
Qed.

(** The field names that [Account] and [accountFromForm] pass to the
    function [formIDFactory] returns. *)
Definition fieldNames : list string :=
  [ "form"; "description"; "id"; "routingNumber"; "accountType";
    "institutionUsername"; "institutionPassword"; "institutionDescription";
    "institutionFID"; "institutionOrg"; "institutionURL";
    "institutionClientID"; "institutionAppID"; "institutionAppVersion";
    "institutionOFXVersion" ].

(** The string holds no separator. *)
Fixpoint noDash (s : string) : bool :=
  match s with
  | EmptyString => true
  | String c rest => negb (Ascii.eqb c "-"%char) && noDash rest
  end.

Lemma noDash_append_dash (a n : string) :
  noDash (String.append a (String "-" n)) = false.
Proof.
  induction a as [|c a IH]; simpl; [reflexivity|].
  rewrite IH. apply andb_false_r.
Qed.

Lemma dash_split (a a' n n' : string) :
  noDash n = true -> noDash n' = true ->
  String.append a (String.append "-" n) = String.append a' (String.append "-" n') ->
  a = a' /\ n = n'.
Proof.
  intros Hn Hn'. revert a'. cbn [String.append].
  induction a as [|c a IH]; intros [|c' a'] H; simpl in H.
  - inversion H. auto.
  - inversion H as [[Hc Hrest]]. subst n.
    rewrite noDash_append_dash in Hn. discriminate.
  - inversion H as [[Hc Hrest]]. subst n'.
    rewrite noDash_append_dash in Hn'. discriminate.
  - inversion H as [[Hc Hrest]]. destruct (IH a' Hrest) as [-> ->]. auto.
Qed.

(** X28: within the form of one account, fields with different names get
    different element IDs, so that [accountFromForm] reads each value
    from its own element; and since none of the field names in use holds
    the separator, an element ID determines both the account ID and the
    field name, whatever the account ID is: forms of different accounts
    never share an element ID. *)
Theorem formIDFactory_injective_in_name :
  (forall accountID name name',
      formIDFactory accountID name = formIDFactory accountID name' ->
      name = name') /\
  (forall accountID accountID' name name',
      noDash name = true -> noDash name' = true ->
      formIDFactory accountID name = formIDFactory accountID' name' ->
      accountID = accountID' /\ name = name') /\
  (forall accountID accountID' name name',
      In name fieldNames -> In name' fieldNames ->
      formIDFactory accountID name = formIDFactory accountID' name' ->
      accountID = accountID' /\ name = name').
Proof.
  assert (Hsplit : forall accountID accountID' name name',
             noDash name = true -> noDash name' = true ->
             formIDFactory accountID name = formIDFactory accountID' name' ->
             accountID = accountID' /\ name = name').
  { intros accountID accountID' name name' Hn Hn' H. unfold formIDFactory in H.
    apply append_cancel_l in H. now apply dash_split. }
  split; [|split].
  - intros accountID name name' H. unfold formIDFactory in H.
    apply append_cancel_l in H. apply append_cancel_l in H.
    now apply append_cancel_l in H.
  - exact Hsplit.
  - intros accountID accountID' name name' Hin Hin'.
    assert (Hall : forall n, In n fieldNames -> noDash n = true).
    { apply forallb_forall. reflexivity. }
    apply Hsplit; now apply Hall.
Qed.

End WebClient.

(** ** The theorems at work on concrete inputs *)
Module Instances.

Import SyncLoop.

Definition partialFailure : error := LedgerError "1 account failed".

Lemma tickerLoop_stops_at_first_failure_witness :
  tickerLoop ([Tick None; Tick None] ++ Tick (Some partialFailure) :: [Tick None]) 1
  = {| cycles := 1 + 2 + 1; sent := Some partialFailure; waiting := false |}.
Proof.
  apply (tickerLoop_stops_at_first_failure [Tick None; Tick None]).
  repeat constructor.
Defined.

Lemma tickerLoop_done_stops_witness :
  tickerLoop ([Tick None] ++ Done :: [Tick None; Tick None]) 1
  = {| cycles := 1 + 1; sent := None; waiting := false |}.
Proof.
  apply (tickerLoop_done_stops [Tick None]). repeat constructor.
Defined.

Lemma syncTask_sends_last_outcome_witness :
  nth_error (None :: tickOutcomes [Tick None; Tick (Some partialFailure); Tick None])
    (cycles (syncTask None [Tick None; Tick (Some partialFailure); Tick None]) - 1)
  = Some (Some partialFailure) /\
  waiting (syncTask None [Tick None; Tick (Some partialFailure); Tick None]) = false /\
  cycles (syncTask None [Tick None; Tick (Some partialFailure); Tick None]) <= 1 + 3.
Proof.
  apply (syncTask_sends_last_outcome None
           [Tick None; Tick (Some partialFailure); Tick None] partialFailure).
  reflexivity.
Defined.

Lemma syncTask_quiet_keeps_waiting_witness :
  syncTask (Some partialFailure) [Tick None; Tick None]
  = {| cycles := 1 + 2; sent := None; waiting := true |}.
Proof.
  apply (syncTask_quiet_keeps_waiting (Some partialFailure) [Tick None; Tick None]).
  - intros err H. inversion H. reflexivity.
  - repeat constructor.
Defined.

(** A fetch over stand-ins for the ofxgo types: statements are numbers,
    the response body and the times are trivial, transactions are
    numbers. *)
Definition meaning (_ : Direct.Status) : string + error := inl "unknown".
Definition render (_ : Direct.Request nat) : string := "".

Definition fetch :=
  Direct.fetchTransactions nat unit unit nat unit meaning render.

Definition failingRequestor : Direct.Requestor nat unit :=
  fun query _ _ => (query, Some (Errorf "no account type" [])).

Definition acceptingInstitution (_ : Direct.Request nat)
  : Direct.Response unit + error :=
  inl {| Direct.SignonStatus := {| Direct.Code := 0; Direct.Message := "" |};
         Direct.Body := tt |}.

Definition twoTransactions (_ : Direct.Response unit)
  : unit * list nat * option error := (tt, [1; 2], None).

Lemma fetchTransactions_requestor_error_witness :
  fetch exampleConnector tt tt
    ([rejectingRequestor] ++ failingRequestor :: [rejectingRequestor])
    acceptingInstitution twoTransactions
  = ([], Some (Errorf "no account type" [])).
Proof.
  unfold fetch.
  apply (Direct.fetchTransactions_requestor_error nat unit unit nat unit
           meaning render exampleConnector tt tt [rejectingRequestor]
           failingRequestor [rejectingRequestor] acceptingInstitution
           twoTransactions
           {| Direct.RequestURL := ""; Direct.Signon := None;
              Direct.Bank := [7]; Direct.CreditCard := [] |});
    reflexivity.
Defined.

Lemma fetchTransactions_without_statement_witness :
  exists query,
    Direct.annotate nat unit [] tt tt (Direct.zeroRequest nat) = inl query /\
    fetch exampleConnector tt tt [] acceptingInstitution twoTransactions =
    ([], Some (Errorf Direct.msgInvalidQuery [FStr (render query)])).
Proof.
  apply (Direct.fetchTransactions_without_statement nat unit unit nat unit
           meaning render exampleConnector tt tt [] acceptingInstitution
           twoTransactions).
  left. reflexivity.
Defined.

Lemma fetchTransactions_transactions_need_code_zero_witness :
  exists query response,
    Direct.annotate nat unit [rejectingRequestor] tt tt (Direct.zeroRequest nat)
    = inl query /\
    acceptingInstitution (Direct.addSignonRequest nat exampleConnector query)
    = inl response /\
    Direct.Code (Direct.SignonStatus response) = 0%Z /\
    fetch exampleConnector tt tt [rejectingRequestor] acceptingInstitution
      twoTransactions
    = (snd (fst (twoTransactions response)), snd (twoTransactions response)).
Proof.
  apply (Direct.fetchTransactions_transactions_need_code_zero nat unit unit nat
           unit meaning render exampleConnector tt tt [rejectingRequestor]
           acceptingInstitution twoTransactions).
  simpl. discriminate.
Defined.

(** A transport that refuses every request not signed by the example
    connector. *)
Definition guardedInstitution (query : Direct.Request nat)
  : Direct.Response unit + error :=
  match Direct.Signon query with
  | Some signon =>
      if String.eqb (Direct.UserID signon) "alice" then acceptingInstitution query
      else inr (Errorf "unknown user" [])
  | None => inr (Errorf "unsigned request" [])
  end.

Lemma fetchTransactions_sends_signed_request_witness :
  fetch exampleConnector tt tt [rejectingRequestor] guardedInstitution
    twoTransactions
  = fetch exampleConnector tt tt [rejectingRequestor] acceptingInstitution
      twoTransactions.
Proof.
  apply (Direct.fetchTransactions_sends_signed_request nat unit unit nat unit
           meaning render exampleConnector tt tt [rejectingRequestor]
           guardedInstitution acceptingInstitution twoTransactions).
  intros query _ Hs. unfold guardedInstitution. rewrite Hs. reflexivity.
Defined.

Lemma new_bank_account_validates_witness :
  (BankAccount.Validate latinUpper (fun _ => None)
     (BankAccount.NewSavingsAccount "1234" "021000021" "Rainy day" None) = None <->
   @None error = None /\ "021000021" <> "") /\
  BankAccount.BankID
    (BankAccount.NewSavingsAccount "1234" "021000021" "Rainy day" None)
  = "021000021".
Proof.
  destruct (BankAccount.new_bank_account_validates latinUpper (fun _ => None)
              "1234" "021000021" "Rainy day" None
              (BankAccount.NewSavingsAccount "1234" "021000021" "Rainy day" None)
              (or_intror eq_refl)) as (Hv & Hb & _).
  split; [exact Hv | exact Hb].
Defined.

(** An info of a savings account written in lower case, without a
    description. *)
Definition savingsInfo : Discovery.AcctInfo :=
  {| Discovery.Desc := "";
     Discovery.Name := "Rainy day";
     Discovery.BankInfo :=
       Some {| Discovery.BankFrom :=
                 {| Discovery.BankID := "021000021";
                    Discovery.AcctID := "1234";
                    Discovery.AcctType := DirectConnect.runes "savings" |};
               Discovery.SupTxDl := true |};
     Discovery.CCInfo := None |}.

Definition brokerageInfo : Discovery.AcctInfo :=
  {| Discovery.Desc := "Brokerage";
     Discovery.Name := "";
     Discovery.BankInfo := None;
     Discovery.CCInfo := None |}.

Definition newCard (id description : string) (_ : Direct.Connector)
  : string * string := (id, description).

Definition savingsAccount : BankAccount.bankAccount :=
  BankAccount.NewSavingsAccount "1234" "021000021" "Rainy day"
    (Some exampleConnector).

Lemma parseAcctInfo_bank_account_witness :
  exists bank,
    Discovery.BankInfo savingsInfo = Some bank /\
    BankAccount.AccountID (BankAccount.Base savingsAccount)
    = Discovery.AcctID (Discovery.BankFrom bank) /\
    BankAccount.RoutingNumber savingsAccount
    = Discovery.BankID (Discovery.BankFrom bank) /\
    BankAccount.DirectConnect (BankAccount.Base savingsAccount)
    = Some exampleConnector /\
    BankAccount.AccountDescription (BankAccount.Base savingsAccount)
    = Discovery.firstNonEmpty
        [Discovery.Desc savingsInfo; Discovery.Name savingsInfo;
         Discovery.AcctID (Discovery.BankFrom bank)] /\
    BankAccount.AccountType savingsAccount
    = DirectConnect.ToUpper latinUpper
        (Discovery.AcctType (Discovery.BankFrom bank)).
Proof.
  apply (Discovery.parseAcctInfo_bank_account latinUpper (string * string) newCard
           (Some exampleConnector) savingsInfo savingsAccount).
  reflexivity.
Defined.

Definition discoveryResponse (_ : Discovery.SignupRequest nat nat)
  : Direct.Response (list Discovery.signupMessage) + error :=
  inl {| Direct.SignonStatus := {| Direct.Code := 0; Direct.Message := "" |};
         Direct.Body :=
           [Discovery.AcctInfoResponse [savingsInfo; brokerageInfo]] |}.

Lemma accounts_accounts_for_every_info_witness :
  exists uid resp infos rest,
    @inl nat error 42 = inl uid /\
    discoveryResponse
      {| Discovery.Base := Direct.addSignonRequest nat exampleConnector
                             (Direct.zeroRequest nat);
         Discovery.Signup := [ {| Discovery.TrnUID := uid |} ] |} = inl resp /\
    Direct.Body resp = Discovery.AcctInfoResponse infos :: rest /\
    List.length [Discovery.BankAccount (string * string) savingsAccount]
    + List.length [Discovery.warnUnknown] = List.length infos /\
    (forall account,
        In account [Discovery.BankAccount (string * string) savingsAccount] <->
        exists info, In info infos /\
                     Discovery.parseAcctInfo latinUpper (string * string) newCard
                       (Some exampleConnector) info = inl account).
Proof.
  apply (Discovery.accounts_accounts_for_every_info latinUpper (string * string)
           newCard nat (fun _ => inl 42) nat exampleConnector discoveryResponse
           [Discovery.BankAccount (string * string) savingsAccount]
           [Discovery.warnUnknown]).
  reflexivity.
Defined.

(** The handlers over the account store of the scenarios. *)
Definition storedAccount : Server.Account :=
  {| Server.ID := "1234";
     Server.Description := "Checking";
     Server.AccountInstitution := Server.DirectInstitution exampleConnector;
     Server.IsRequestor := true |}.

Definition readAccount (decoded : Server.Account) :=
  Server.readAndValidateAccount (list Server.Account) Scenario.storeGet
    (fun _ => inl decoded) (fun _ => None).

Lemma readAndValidateAccount_fills_stored_password_witness :
  exists filled filledConn,
    readAccount submittedAccount (inl "{}") [storedAccount] = inl (filled, None) /\
    Server.AccountInstitution filled = Server.DirectInstitution filledConn /\
    Direct.Password filledConn = "wrong" /\
    Direct.Username filledConn = "alice".
Proof.
  destruct (Server.readAndValidateAccount_fills_stored_password
              (list Server.Account) Scenario.storeGet
              (fun _ => inl submittedAccount) (fun _ => None)
              "{}" [storedAccount] submittedAccount storedAccount
              submittedConnector exampleConnector
              eq_refl eq_refl eq_refl eq_refl eq_refl)
    as (filled & filledConn & Hread & Hinst & Hpw & _ & Hname & _).
  exists filled, filledConn. repeat split; assumption.
Defined.

Lemma readAndValidateAccount_password_given_witness :
  readAccount storedAccount (inl "{}") [] = inl (storedAccount, None).
Proof.
  apply (Server.readAndValidateAccount_password_given
           (list Server.Account) Scenario.storeGet
           (fun _ => inl storedAccount) (fun _ => None) "{}" [] storedAccount);
    reflexivity.
Defined.

(** The account is renamed while the ledger has no posting of it. *)
Definition emptyLedgerWorld
  : Server.world (list Server.Account) Ledger.Ledger Ledger.Ledger :=
  {| Server.accountStore := [storedAccount];
     Server.ldg := [];
     Server.ledgerFile := [] |}.

Definition jointAccount : Server.Account :=
  {| Server.ID := "1234";
     Server.Description := "Joint";
     Server.AccountInstitution := Server.DirectInstitution exampleConnector;
     Server.IsRequestor := true |}.

Lemma updateAccount_rename_failure_witness :
  Scenario.updateAccount emptyLedgerWorld (inl "Joint") =
  ({| Server.accountStore := [jointAccount];
      Server.ldg := [];
      Server.ledgerFile := [] |},
   [Server.StoreUpdated "1234";
    Server.LedgerRenamed "assets:Example Bank:Checking" "assets:Example Bank:Joint"],
   Server.abortWithClientError Server.StatusInternalServerError
     (Errorf "Account not found" [])).
Proof.
  apply (Server.updateAccount_rename_failure
           (list Server.Account) Scenario.storeGet Scenario.storeUpdate
           Scenario.decode (fun _ => None) Scenario.ledgerAccountName
           Ledger.Ledger Scenario.updateAccountName Ledger.Ledger
           Scenario.writeLedger emptyLedgerWorld (inl "Joint")
           jointAccount storedAccount [jointAccount] []
           (Errorf "Account not found" []));
    try reflexivity.
  discriminate.
Defined.

(** The sign-in check against an institution that rejects the password. *)
Lemma verifyAccount_signon_rejected_witness :
  SignIn.verifyAccount unit (fun _ _ => inl None) (fun _ => inl storedAccount)
    (fun _ => None) (fun _ => false) nat unit unit nat unit meaning render
    (fun _ _ => inl rejectingInstitution) (fun t _ => t)
    (fun _ => rejectingRequestor) twoTransactions tt tt (inl "{}")
  = Server.abortWithClientError Server.StatusUnauthorized ErrAuthFailed.
Proof.
  refine (proj1 (SignIn.verifyAccount_signon_rejected
                   unit (fun _ _ => inl None) (fun _ => inl storedAccount)
                   (fun _ => None) (fun _ => false) nat unit unit nat unit
                   meaning render (fun _ _ => inl rejectingInstitution)
                   (fun t _ => t) (fun _ => rejectingRequestor) twoTransactions
                   tt tt (inl "{}") storedAccount exampleConnector
                   rejectingInstitution
                   {| Direct.RequestURL := ""; Direct.Signon := None;
                      Direct.Bank := [7]; Direct.CreditCard := [] |}
                   {| Direct.SignonStatus :=
                        {| Direct.Code := 15500;
                           Direct.Message := "signon invalid" |};
                      Direct.Body := tt |}
                   eq_refl eq_refl eq_refl eq_refl eq_refl _ eq_refl) eq_refl).
  left. discriminate.
Defined.

End Instances.
